(** * A shallow embedding of the REST binding layer

    Source files:
    - [base_rest/restapi.py]: the [method] decorator and the parameter
      transformers [BinaryData] and [CerberusValidator];
    - [base_rest_auth_api_key/apispec/rest_method_security_plugin.py]: the
      OpenAPI security plugin.

    Python objects that are only read are modelled by value ([pyval]).
    Objects that the code mutates while other references to them may exist
    (lists handed to the decorator, the dictionaries of an [operations]
    mapping, a parameter dictionary already appended to a list) live in an
    explicit store and are referred to by location. *)

From Stdlib Require Import ZArith.
From stdpp Require Import base option list strings gmap.

Open Scope string_scope.
Open Scope list_scope.
Set Warnings "-register-all".

(** ** Python values and exceptions *)

Inductive pyval : Type :=
  | PNone
  | PBool (b : bool)
  | PInt (n : Z)
  | PStr (s : string)
  | PList (xs : list pyval)
  | PTuple (xs : list pyval)
  | PDict (kvs : list (string * pyval))
  | PObj (id : nat).

(** Python's truth value testing ([if x:], [not x]). An opaque object is
    taken to be truthy, as instances are unless they define otherwise. *)
Definition truthy (v : pyval) : bool :=
  match v with
  | PNone => false
  | PBool b => b
  | PInt n => negb (n =? 0)%Z
  | PStr s => negb (String.eqb s "")
  | PList xs | PTuple xs => negb (bool_decide (length xs = 0))
  | PDict kvs => negb (bool_decide (length kvs = 0))
  | PObj _ => true
  end.

(** [v == "s"] for a string literal [s]: only a [str] compares equal. *)
Definition is_str (s : string) (v : pyval) : bool :=
  match v with
  | PStr t => String.eqb t s
  | _ => false
  end.

(** A message built as [_(template) % arg]: translation and rendering are
    the host's, so the message is kept as the template and the value
    substituted into it. *)
Record message := Message { template : string; msg_arg : pyval }.

Inductive exn : Type :=
  | UserError (m : message)
  | SystemError (m : message)
  | Exception (m : message)
  | AssertionError
  | KeyError (k : string)
  | TypeError
  | AttributeError
  | Foreign (tag : string).   (* raised by a collaborator outside this code *)

Inductive result (A : Type) : Type :=
  | Ok (a : A)
  | Raise (e : exn).
Arguments Ok {A} a.
Arguments Raise {A} e.

(** Errors propagate through [x ← r; k], stdpp's notation for [mbind]. *)
#[global] Instance result_bind : MBind result := λ A B k r,
  match r with
  | Ok a => k a
  | Raise e => Raise e
  end.
#[global] Instance result_ret : MRet result := @Ok.

(** [template % x] for a template with a single [%s]. A tuple on the
    right of [%] is taken as the sequence of the values to substitute, so
    it must have exactly one element, and that element is the value
    shown; any other value is shown itself. *)
Definition percent (template : string) (x : pyval) : result message :=
  match x with
  | PTuple [y] => Ok {| template := template; msg_arg := y |}
  | PTuple _ => Raise TypeError
  | _ => Ok {| template := template; msg_arg := x |}
  end.

(** A loop whose body may raise: [for x in xs: st = body(st, x)]. *)
Fixpoint foldlM {S A : Type} (body : S → A → result S) (st : S) (xs : list A)
    : result S :=
  match xs with
  | [] => Ok st
  | x :: xs' => st' ← body st x; foldlM body st' xs'
  end.

(** Python dictionaries with string keys, in insertion order. *)
Abbreviation pydict := (list (string * pyval)).

Section Dict.
Context {V : Type}.
Implicit Types (k : string) (d : list (string * V)).

Fixpoint dict_get k d : option V :=
  match d with
  | [] => None
  | (k', v) :: d' => if String.eqb k' k then Some v else dict_get k d'
  end.

(** [k in d] *)
Definition dict_mem k d : bool :=
  match dict_get k d with Some _ => true | None => false end.

(** [d.get(k, dflt)]; [d.get(k)] is [d.get(k, None)]. *)
Definition dict_get_default k (dflt : V) d : V :=
  default dflt (dict_get k d).

(** [d[k]] *)
Definition dict_getitem k d : result V :=
  match dict_get k d with
  | Some v => Ok v
  | None => Raise (KeyError k)
  end.

(** [d[k] = v]: an existing key keeps its position. *)
Fixpoint dict_set k (v : V) d : list (string * V) :=
  match d with
  | [] => [(k, v)]
  | (k', v') :: d' =>
      if String.eqb k' k then (k, v) :: d' else (k', v') :: dict_set k v d'
  end.
End Dict.

(** Attribute and item access on a value that should be a dictionary. *)

(** [x.get(k, dflt)] *)
Definition py_get (k : string) (dflt : pyval) (x : pyval) : result pyval :=
  match x with
  | PDict d => Ok (dict_get_default k dflt d)
  | _ => Raise AttributeError
  end.

(** [x[k]] for a string [k] *)
Definition py_getitem (k : string) (x : pyval) : result pyval :=
  match x with
  | PDict d => dict_getitem k d
  | _ => Raise TypeError
  end.

(** [x[k] = v] for a string [k]; the updated [x] is returned. *)
Definition py_setitem (k : string) (v : pyval) (x : pyval) : result pyval :=
  match x with
  | PDict d => Ok (PDict (dict_set k v d))
  | _ => Raise TypeError
  end.

(** [x.items()] as a list *)
Definition py_items (x : pyval) : result pydict :=
  match x with
  | PDict d => Ok d
  | _ => Raise AttributeError
  end.

(** [s in x] for a string [s] *)
Definition py_contains (s : string) (x : pyval) : result bool :=
  match x with
  | PList xs | PTuple xs => Ok (existsb (is_str s) xs)
  | PDict d => Ok (dict_mem s d)
  | PStr t => Ok (bool_decide (is_Some (String.index 0 s t)))
  | _ => Raise TypeError
  end.

(** * [base_rest/restapi.py]: the [method] decorator *)

Module RestApi.

(** The lists a caller passes in a route specification are Python objects
    the decorator may append to, so they live in a store. A location
    without an entry reads as the empty list. *)
Definition loc := nat.
Abbreviation store := (gmap loc (list string)).

(** A path or verb argument: a single string, or (a reference to) a list
    of strings, the two shapes the docstring of [method] names. *)
Inductive arg : Type :=
  | Str (s : string)
  | ListRef (l : loc).

#[global] Instance arg_eq_dec : EqDecision arg.
Proof. solve_decision. Defined.

(** The value of [paths] / [http_methods] after the [isinstance] tests:
    the caller's list object, or the one-element list made on the spot,
    to which nothing else refers. *)
Inductive pylist : Type :=
  | Fresh (xs : list string)
  | Shared (l : loc).

(** [if not isinstance(x, list): x = [x]] *)
Definition as_list (a : arg) : pylist :=
  match a with
  | Str s => Fresh [s]
  | ListRef l => Shared l
  end.

Definition contents (h : store) (x : pylist) : list string :=
  match x with
  | Fresh xs => xs
  | Shared l => h !!! l
  end.

(** [x.append(s)] *)
Definition append (h : store) (x : pylist) (s : string) : store * pylist :=
  match x with
  | Fresh xs => (h, Fresh (xs ++ [s]))
  | Shared l => (<[l := (h !!! l) ++ [s]]> h, Shared l)
  end.

(** One element of [_routes]: [([p for p in paths], m)]. *)
Definition route : Type := list string * string.

(** [kw.get("cors")] as a condition. *)
Definition cors_set (kw : gmap string pyval) : bool :=
  truthy (default PNone (kw !! "cors")).

(** The body of [for paths, http_methods in routes:]. *)
Definition route_step (cors : bool) (st : store * list route)
    (spec : arg * arg) : store * list route :=
  let '(h, _routes) := st in
  let paths := as_list spec.1 in
  let http_methods := as_list spec.2 in
  let '(h, http_methods) :=
    if cors && negb (bool_decide ("OPTIONS" ∈ contents h http_methods))
    then append h http_methods "OPTIONS"
    else (h, http_methods) in
  (h, _routes ++ map (fun m => (contents h paths, m)) (contents h http_methods)).

Definition build_routes (cors : bool) (routes : list (arg * arg)) (h : store)
    : store * list route :=
  foldl (route_step cors) (h, []) routes.

(** The lists of a route specification as the loop finds them in [h]:
    the paths, and the verbs with [OPTIONS] added when CORS asks for it
    and it is not listed. Used to state what [build_routes] computes. *)
Definition normalized_paths (h : store) (spec : arg * arg) : list string :=
  contents h (as_list spec.1).

Definition given_verbs (h : store) (spec : arg * arg) : list string :=
  contents h (as_list spec.2).

Definition normalized_verbs (cors : bool) (h : store) (spec : arg * arg)
    : list string :=
  if cors && negb (bool_decide ("OPTIONS" ∈ given_verbs h spec))
  then given_verbs h spec ++ ["OPTIONS"]
  else given_verbs h spec.

(** One entry per verb, each holding the whole list of paths. *)
Definition routes_per_verb (cors : bool) (h : store) (routes : list (arg * arg))
    : list route :=
  flat_map (λ spec, map (λ m, (normalized_paths h spec, m))
                        (normalized_verbs cors h spec)) routes.

(** The routes as the specification words them: the cross product of the
    normalized paths and verbs, flattened into single [(path, verb)]
    pairs, in order and without duplicates. *)
Definition spec_routes (cors : bool) (h : store) (routes : list (arg * arg))
    : list (string * string) :=
  remove_dups
    (flat_map (λ spec, flat_map (λ p, map (λ m, (p, m)) (normalized_verbs cors h spec))
                                (normalized_paths h spec)) routes).

(** A single pair written as an element of [_routes], with a path list
    of one path, and a sequence of pairs as the Python value it would be. *)
Definition single_pair (pv : string * string) : route := ([pv.1], pv.2).

Definition pairs_val (pvs : list (string * string)) : pyval :=
  PList (map (λ pv : string * string, PTuple [PStr pv.1; PStr pv.2]) pvs).

(** How Python binds the arguments of a call of [method], [nargs] of
    them positional and the others given by keyword, to the signature
    [method(routes, input_param=None, output_param=None, **kw)]: the
    result is the bag [kw], or a [TypeError] for too many positional
    arguments, a parameter given twice or [routes] left out. *)
Definition method_kw (nargs : nat) (keywords : gmap string pyval)
    : result (gmap string pyval) :=
  let given_twice (i : nat) (name : string) : bool :=
    (i <? nargs)%nat && bool_decide (is_Some (keywords !! name)) in
  if (3 <? nargs)%nat then Raise TypeError
  else if given_twice 0 "routes" || given_twice 1 "input_param"
          || given_twice 2 "output_param" then Raise TypeError
  else if (nargs =? 0)%nat && negb (bool_decide (is_Some (keywords !! "routes")))
  then Raise TypeError
  else Ok (delete "routes" (delete "input_param" (delete "output_param" keywords))).

(** [_routes] as a Python value: a list of [(list of paths, verb)] tuples. *)
Definition routes_val (rs : list route) : pyval :=
  PList (map (fun r : route => PTuple [PList (map PStr r.1); PStr r.2]) rs).

(** [routing = {...}; routing.update(kw)] *)
Definition make_routing (_routes : list route) (input_param output_param : pyval)
    (kw : gmap string pyval) : gmap string pyval :=
  kw ∪ (<["routes" := routes_val _routes]>
        (<["input_param" := input_param]>
         (<["output_param" := output_param]> ∅))).

Section Decorator.
(** The decorated function: arguments in, a value or an exception out,
    with whatever it does to the world around it. *)
Context {Args World Ret : Type}.

Definition callable : Type := Args → World → result Ret * World.

Definition response_wrap (f : callable) : callable :=
  fun args w =>
    let '(response, w) := f args w in
    (response, w).

Record wrapper := Wrapper {
  call : callable;
  routing : gmap string pyval;
  original_func : callable;
}.

(** The inner function [decorator(f)], with the arguments of the
    enclosing call of [method] that it closes over. *)
Definition decorator (routes : list (arg * arg))
    (input_param output_param : pyval) (kw : gmap string pyval)
    (f : callable) (h : store) : wrapper * store :=
  let '(h, _routes) := build_routes (cors_set kw) routes h in
  ({| call := response_wrap f;
      routing := make_routing _routes input_param output_param kw;
      original_func := f |}, h).

(** [method(routes, input_param, output_param, **kw)] returns [decorator]. *)
Definition method (routes : list (arg * arg))
    (input_param output_param : pyval) (kw : gmap string pyval)
    : callable → store → wrapper * store :=
  decorator routes input_param output_param kw.
End Decorator.

End RestApi.

(** * [base_rest/restapi.py]: [BinaryData] *)

Module BinaryData.

(** [len(result)] is an [int], the other header values are strings. *)
Inductive header_value : Type :=
  | HStr (s : string)
  | HInt (n : nat).

(** What the decorated method handed back: an [http.Response] it built
    itself, or the raw bytes. *)
Inductive handler_result (Response : Type) : Type :=
  | IsResponse (r : Response)
  | RawBytes (data : list Byte.byte).
Arguments IsResponse {Response} r.
Arguments RawBytes {Response} data.

(** The [mediatypes] argument of the constructor. *)
Inductive mediatypes_arg : Type :=
  | OneType (s : string)
  | TypeList (l : list string).

Record t := { _mediatypes : list string; _required : bool }.

(** [BinaryData.__init__]; the defaults are ["*/*"] and [False]. *)
Definition init (mediatypes : mediatypes_arg) (required : bool) : t :=
  {| _mediatypes := match mediatypes with
                    | OneType s => [s]
                    | TypeList l => l
                    end;
     _required := required |}.

Section Host.
(** Odoo's [http.Response], [http.request.make_response] and
    [http.content_disposition]. *)
Context {Response Service : Type}.
Variable make_response :
  list Byte.byte → list (string * header_value) → Response.
Variable content_disposition : string → string.

Definition _to_http_response (self : t) (result : list Byte.byte) : Response :=
  let mediatype :=
    match _mediatypes self with
    | [m] => m
    | _ => "*/*"
    end in
  let headers :=
    [ ("Content-Type", HStr mediatype);
      ("X-Content-Type-Options", HStr "nosniff");
      ("Content-Disposition", HStr (content_disposition "file"));
      ("Content-Length", HInt (length result)) ] in
  make_response result headers.

Definition to_response (self : t) (service : Service)
    (result : handler_result Response) : Response :=
  match result with
  | IsResponse r => r
  | RawBytes data => _to_http_response self data
  end.

Definition from_params (self : t) (service : Service) (params : pyval) : pyval :=
  params.
End Host.

(** The schema of one media type in [_binary_content_schema]. *)
Definition binary_schema (required : bool) : pyval :=
  PDict [("schema", PDict [ ("type", PStr "string");
                            ("format", PStr "binary");
                            ("required", PBool required) ])].

(** The property [_binary_content_schema]: a dictionary comprehension
    over [self._mediatypes], so a media type listed again overwrites its
    entry. *)
Definition _binary_content_schema (self : t) : pydict :=
  foldl (λ d mediatype, dict_set mediatype (binary_schema (_required self)) d)
        [] (_mediatypes self).

Definition to_openapi_requestbody {Service : Type} (self : t) (service : Service)
    : pyval :=
  PDict [("content", PDict (_binary_content_schema self))].

Definition to_openapi_responses {Service : Type} (self : t) (service : Service)
    : pyval :=
  PDict [("200", PDict [("content", PDict (_binary_content_schema self))])].

End BinaryData.

(** * [base_rest/restapi.py]: [CerberusValidator] *)

Module CerberusValidator.

(** The part of the [cerberus] library the class uses: the constructor
    [Validator(schema, purge_unknown=...)], the method [validate], which
    may raise and leaves its outcome in the validator, and the attributes
    [document], [errors] and [schema]. *)
Class Cerberus := {
  Validator : Type;
  new_validator : pyval → bool → Validator;
  validate : Validator → pyval → result (bool * Validator);
  document : Validator → pyval;
  errors : Validator → pyval;
  schema : Validator → pyval;
}.

(** What [self._schema], or the value a named handler returns, can be: a
    [str], a [Validator], a [dict], or a value [x] that is none of
    these. *)
Inductive schema_value `{Cerberus} : Type :=
  | SStr (name : string)
  | SValidator (v : Validator)
  | SDict (rules : pydict)
  | SOther (x : pyval).

(** The collaborators reached through the service, and the converter
    [cerberus_to_json] of [base_rest/tools.py], taken as given. *)
Class Host `{Cerberus} := {
  Service : Type;
  (** [service.component(usage="cerberus.validator")
        .get_validator_handler(service, name, direction)()] *)
  validator_handler : Service → string → string → result schema_value;
  cerberus_to_json : pyval → result pyval;
}.

(** The dictionaries [params] of [to_openapi_query_parameters] are
    appended to [parameters] and changed afterwards, so the list holds
    references into a store of dictionaries. The nested ["schema"] value
    is kept by value: that it may be the very object found in [spec] is
    not tracked. *)
Abbreviation param_store := (list pydict).

Section Methods.
Context `{Host}.

Record t := { _schema : schema_value; _is_list : bool }.

(** [CerberusValidator.__init__]; the defaults are [None] and [False]. *)
Definition init (schema : schema_value) (is_list : bool) : t :=
  {| _schema := schema; _is_list := is_list |}.

(** The value shown by [% self._schema] in the last error message. *)
Definition schema_repr (s : schema_value) : pyval :=
  match s with
  | SStr name => PStr name
  | SDict rules => PDict rules
  | SOther x => x
  | SValidator _ => PObj 0
  end.

Definition get_cerberus_validator (self : t) (service : Service)
    (direction : string) : result Validator :=
  if negb (bool_decide (direction ∈ ["input"; "output"]))
  then Raise AssertionError
  else
    schema ← match _schema self with
              | SStr name => validator_handler service name direction
              | s => Ok s
              end;
    match schema with
    | SValidator v => Ok v
    | SDict rules => Ok (new_validator (PDict rules) true)
    | _ =>
        msg ← percent "Unable to get cerberus schema from %s"
                (schema_repr (_schema self));
        Raise (Exception msg)
    end.

Definition from_params (self : t) (service : Service) (params : pyval)
    : result pyval :=
  validator ← get_cerberus_validator self service "input";
  '(valid, validator) ← validate validator params;
  if valid : bool then Ok (document validator)
  else Raise (UserError
         {| template := "BadRequest %s"; msg_arg := errors validator |}).

Definition to_response (self : t) (service : Service) (res : pyval)
    : result pyval :=
  validator ← get_cerberus_validator self service "output";
  '(valid, validator) ← validate validator res;
  if valid : bool then Ok (document validator)
  else Raise (SystemError
         {| template := "Invalid Response %s"; msg_arg := errors validator |}).

Definition to_json_schema (self : t) (service : Service) (direction : string)
    : result pyval :=
  validator ← get_cerberus_validator self service direction;
  cerberus_to_json (schema validator).

Definition store_get (heap : param_store) (l : nat) : pydict :=
  default [] (heap !! l).

(** The body of [for prop, spec in list(json_schema["properties"].items()):] *)
Definition query_parameter (json_schema : pyval)
    (st : param_store * list nat) (item : string * pyval)
    : result (param_store * list nat) :=
  let '(heap, parameters) := st in
  let '(prop, spec) := item in
  required ← py_getitem "required" json_schema;
  is_required ← py_contains prop required;
  nullable ← py_get "nullable" (PBool false) spec;
  dflt ← py_get "default" PNone spec;
  let params : pydict :=
    [ ("name", PStr prop);
      ("in", PStr "query");
      ("required", PBool is_required);
      ("allowEmptyValue", nullable);
      ("default", dflt) ] in
  sch ← py_get "schema" PNone spec;
  params ← (if truthy sch then Ok (dict_set "schema" sch params)
            else ty ← py_getitem "type" spec;
                 Ok (dict_set "schema" (PDict [("type", ty)]) params));
  items ← py_get "items" PNone spec;
  params ← (if truthy items
            then s ← dict_getitem "schema" params;
                 s ← py_setitem "items" items s;
                 Ok (dict_set "schema" s params)
            else Ok params);
  has_enum ← py_contains "enum" spec;
  params ← (if has_enum : bool
            then enum ← py_getitem "enum" spec;
                 s ← dict_getitem "schema" params;
                 s ← py_setitem "enum" enum s;
                 Ok (dict_set "schema" s params)
            else Ok params);
  (* parameters.append(params): the list now refers to the dictionary *)
  let l := length heap in
  let heap := heap ++ [params] in
  let parameters := parameters ++ [l] in
  ty ← py_getitem "type" spec;
  if is_str "array" ty
  then
    (* params["name"] = params["name"] + "[]", through the reference *)
    name ← dict_getitem "name" (store_get heap l);
    match name with
    | PStr n =>
        Ok (<[l := dict_set "name" (PStr (n +:+ "[]")) (store_get heap l)]> heap,
            parameters)
    | _ => Raise TypeError
    end
  else Ok (heap, parameters).

(** The name under which the property [item] is to be documented. *)
Definition documented_name (item : string * pyval) : string :=
  match py_getitem "type" item.2 with
  | Ok ty => if is_str "array" ty then item.1 +:+ "[]" else item.1
  | Raise _ => item.1
  end.

(** A property description the loop can process: a dictionary with a
    ["type"], whose ["schema"] entry, if there is one, is a dictionary
    or falsy. *)
Definition typed_property (item : string * pyval) : bool :=
  match item.2 with
  | PDict spec =>
      dict_mem "type" spec &&
      match dict_get "schema" spec with
      | None | Some (PDict _) => true
      | Some v => negb (truthy v)
      end
  | _ => false
  end.

(** A JSON schema of the shape the converter is to produce: a
    dictionary with a ["required"] list and typed ["properties"]. *)
Definition object_schema (json_schema : pyval) (properties : pydict) : Prop :=
  py_getitem "properties" json_schema = Ok (PDict properties) ∧
  (∃ required, py_getitem "required" json_schema = Ok (PList required)) ∧
  forallb typed_property properties = true.

(** What a parameter dictionary [d] says of the property [item], given
    the list [required] of the schema: where the parameter goes, whether
    it is required, whether it may be empty, and its default. *)
Definition parameter_fields (required : list pyval) (item : string * pyval)
    (d : pydict) : Prop :=
  ∃ spec, item.2 = PDict spec ∧
    dict_get "in" d = Some (PStr "query") ∧
    dict_get "required" d = Some (PBool (existsb (is_str item.1) required)) ∧
    dict_get "allowEmptyValue" d
    = Some (dict_get_default "nullable" (PBool false) spec) ∧
    dict_get "default" d = Some (dict_get_default "default" PNone spec).

(** What the ["schema"] entry of a parameter dictionary [d] holds for the
    property [item]: the type when the property brings no schema of its
    own, its items when it has some, and its enumeration when it has
    one. *)
Definition parameter_schema (item : string * pyval) (d : pydict) : Prop :=
  ∃ spec s, item.2 = PDict spec ∧
    dict_get "schema" d = Some (PDict s) ∧
    (truthy (dict_get_default "schema" PNone spec) = false →
     dict_get "type" s = dict_get "type" spec) ∧
    (truthy (dict_get_default "items" PNone spec) = true →
     dict_get "items" s = dict_get "items" spec) ∧
    (dict_mem "enum" spec = true → dict_get "enum" s = dict_get "enum" spec).

(** The list returned, read through the references it holds. *)
Definition deref (heap : param_store) (parameters : list nat) : list pydict :=
  map (store_get heap) parameters.

Definition query_parameters_of (json_schema : pyval) : result (list pydict) :=
  properties ← py_getitem "properties" json_schema;
  items ← py_items properties;
  '(heap, parameters) ← foldlM (query_parameter json_schema) ([], []) items;
  Ok (deref heap parameters).

Definition to_openapi_query_parameters (self : t) (service : Service)
    : result (list pydict) :=
  json_schema ← to_json_schema self service "input";
  query_parameters_of json_schema.

Definition to_openapi_requestbody (self : t) (service : Service)
    : result pyval :=
  json_schema ← to_json_schema self service "input";
  Ok (PDict [("content",
              PDict [("application/json", PDict [("schema", json_schema)])])]).

Definition to_openapi_responses (self : t) (service : Service)
    : result pyval :=
  json_schema ← to_json_schema self service "output";
  Ok (PDict [("200",
              PDict [("content",
                      PDict [("application/json",
                              PDict [("schema", json_schema)])])])]).
End Methods.

(** The exception of [get_cerberus_validator] for a source [x] it cannot
    use. *)
Definition unable (x : pyval) : exn :=
  Exception {| template := "Unable to get cerberus schema from %s"; msg_arg := x |}.

End CerberusValidator.

(** * [base_rest_auth_api_key/apispec/rest_method_security_plugin.py] *)

Module RestMethodSecurityPlugin.

(** The dictionaries of an [operations] mapping are changed in place and
    may be reachable under several names, so they live in a store. An
    entry of such a dictionary is a value nothing else refers to, or a
    reference to an object of the store. *)
Definition loc := nat.

Inductive val : Type :=
  | Val (v : pyval)
  | Ref (l : loc).

Inductive obj : Type :=
  | ODict (d : list (string * val))
  | OList (xs : list val).

Abbreviation store := (gmap loc obj).

(** The plugin after [init_spec]: [self.spec._params]. *)
Record t := { spec_params : pydict }.

(** [{"api_key": []}] *)
Definition api_key_requirement : pyval := PDict [("api_key", PList [])].

(** The body of [for _method, params in operations.items():]
    [security = params.setdefault("security", []); security.append(...)] *)
Definition add_security (h : store) (item : string * loc) : result store :=
  let '(_method, params) := item in
  match h !! params with
  | Some (ODict d) =>
      match dict_get "security" d with
      | None =>
          Ok (<[params :=
                ODict (dict_set "security" (Val (PList [api_key_requirement])) d)]> h)
      | Some (Val (PList xs)) =>
          Ok (<[params :=
                ODict (dict_set "security"
                         (Val (PList (xs ++ [api_key_requirement]))) d)]> h)
      | Some (Val _) => Raise AttributeError
      | Some (Ref s) =>
          match h !! s with
          | Some (OList xs) => Ok (<[s := OList (xs ++ [Val api_key_requirement])]> h)
          | _ => Raise AttributeError
          end
      end
  | _ => Raise AttributeError
  end.

Section Plugin.
(** [BasePlugin.operation_helper] of the [apispec] library. *)
Variable base_operation_helper :
  pyval → option (list (string * loc)) → gmap string pyval → store → result store.

Definition operation_helper (self : t) (path : pyval)
    (operations : option (list (string * loc))) (kwargs : gmap string pyval)
    (h : store) : result store :=
  let routing := default PNone (kwargs !! "routing") in
  h ← (if negb (truthy routing)
       then base_operation_helper path operations kwargs h
       else Ok h);
  match operations with
  | None | Some [] => Ok h
  | Some ops =>
      auth ← py_get "auth"
               (dict_get_default "default_auth" PNone (spec_params self))
               routing;
      if is_str "api_key" auth then foldlM add_security h ops else Ok h
  end.
End Plugin.

(** The security list of the operation at [p], however it is stored;
    a missing entry reads as the empty list. *)
Definition security_of (h : store) (p : loc) : option (list val) :=
  match h !! p with
  | Some (ODict d) =>
      match dict_get "security" d with
      | None => Some []
      | Some (Val (PList xs)) => Some (Val <$> xs)
      | Some (Val _) => None
      | Some (Ref s) =>
          match h !! s with
          | Some (OList xs) => Some xs
          | _ => None
          end
      end
  | _ => None
  end.

(** The list object an operation shares its security list with, if any. *)
Definition security_ref (h : store) (p : loc) : option loc :=
  match h !! p with
  | Some (ODict d) =>
      match dict_get "security" d with
      | Some (Ref s) => Some s
      | _ => None
      end
  | _ => None
  end.

(** The other entries of the operation at [p]. *)
Definition entry_of (h : store) (p : loc) (k : string) : option val :=
  match h !! p with
  | Some (ODict d) => dict_get k d
  | _ => None
  end.

(** An operation the loop has appended the requirement to: its security
    list is one element longer, still the same object when it was one,
    and its other entries are as they were. *)
Definition requirement_added (h h' : store) (p : loc) : Prop :=
  security_of h' p = (.++ [Val api_key_requirement]) <$> security_of h p ∧
  security_ref h' p = security_ref h p ∧
  ∀ k, k ≠ "security" → entry_of h' p k = entry_of h p k.

(** An operation the loop has not touched. *)
Definition same_operation (h h' : store) (q : loc) : Prop :=
  security_of h' q = security_of h q ∧
  security_ref h' q = security_ref h q ∧
  ∀ k, entry_of h' q k = entry_of h q k.

End RestMethodSecurityPlugin.

(** * From the decorator to the plugin

    The routing dictionary a wrapper carries, as the value found under
    the ["routing"] keyword of [operation_helper]. The order of its
    entries plays no part there. *)
Definition routing_value (routing : gmap string pyval) : pyval :=
  PDict (map_to_list routing).

(** * A small reference validator

    A validator with Cerberus' documented normalization for flat rule
    mappings, used to run the transformers on concrete inputs: unknown
    fields are purged when asked, declared defaults fill the fields left
    out, and a required field left out is an error. *)

Module ReferenceValidator.

Record validator := {
  v_schema : pyval;
  v_purge_unknown : bool;
  v_document : pyval;
  v_errors : pyval;
}.

Definition rules_of (schema : pyval) : pydict :=
  match schema with
  | PDict rules => rules
  | _ => []
  end.

Definition purge (rules doc : pydict) : pydict :=
  List.filter (λ kv, dict_mem kv.1 rules) doc.

Definition rule_default (rule : pyval) : option pyval :=
  match rule with
  | PDict r => dict_get "default" r
  | _ => None
  end.

Definition apply_default (d : pydict) (kr : string * pyval) : pydict :=
  if dict_mem kr.1 d then d
  else match rule_default kr.2 with
       | Some dv => dict_set kr.1 dv d
       | None => d
       end.

Definition apply_defaults (rules doc : pydict) : pydict :=
  foldl apply_default doc rules.

Definition rule_required (rule : pyval) : bool :=
  match rule with
  | PDict r => truthy (dict_get_default "required" (PBool false) r)
  | _ => false
  end.

Definition check (rules doc : pydict) : pydict :=
  flat_map (λ kr : string * pyval,
              if rule_required kr.2 && negb (dict_mem kr.1 doc)
              then [(kr.1, PList [PStr "required field"])] else []) rules
  ++ flat_map (λ kv : string * pyval,
                 if dict_mem kv.1 rules then []
                 else [(kv.1, PList [PStr "unknown field"])]) doc.

Definition run (v : validator) (x : pyval) : result (bool * validator) :=
  match x with
  | PDict doc =>
      let rules := rules_of (v_schema v) in
      let doc := if v_purge_unknown v then purge rules doc else doc in
      let doc := apply_defaults rules doc in
      let errs := check rules doc in
      Ok (match errs with [] => true | _ => false end,
          {| v_schema := v_schema v;
             v_purge_unknown := v_purge_unknown v;
             v_document := PDict doc;
             v_errors := PDict errs |})
  | _ => Raise (Foreign "DocumentError")
  end.

#[export] Instance cerberus : CerberusValidator.Cerberus := {|
  CerberusValidator.Validator := validator;
  CerberusValidator.new_validator schema purge_unknown :=
    {| v_schema := schema; v_purge_unknown := purge_unknown;
       v_document := PNone; v_errors := PDict [] |};
  CerberusValidator.validate := run;
  CerberusValidator.document := v_document;
  CerberusValidator.errors := v_errors;
  CerberusValidator.schema := v_schema;
|}.

(** A converter for flat rule mappings: the Cerberus type [list] is the
    JSON type [array], the other rules are carried over. *)
Definition json_type (ty : pyval) : pyval :=
  if is_str "list" ty then PStr "array" else ty.

Definition json_property (rule : pyval) : pyval :=
  match rule with
  | PDict r =>
      PDict (map (λ kv : string * pyval,
                    if String.eqb kv.1 "type" then (kv.1, json_type kv.2) else kv) r)
  | _ => PDict []
  end.

Definition to_json (schema : pyval) : result pyval :=
  let rules := rules_of schema in
  Ok (PDict
        [ ("type", PStr "object");
          ("required",
           PList (map (λ kr : string * pyval, PStr kr.1)
                    (List.filter (λ kr : string * pyval, rule_required kr.2) rules)));
          ("properties",
           PDict (map (λ kr : string * pyval, (kr.1, json_property kr.2)) rules)) ]).

(** A host without named schemas. *)
#[export] Instance host : CerberusValidator.Host := {|
  CerberusValidator.Service := unit;
  CerberusValidator.validator_handler _ _ _ := Raise (Foreign "MissingHandler");
  CerberusValidator.cerberus_to_json := to_json;
|}.

End ReferenceValidator.

(** * Sample inputs *)

Module Samples.

(** A handler that returns [None]. *)
Definition no_handler : @RestApi.callable unit unit pyval :=
  λ _ w, (Ok PNone, w).

(** A response as [make_response] builds it: the body and the headers. *)
Record http_response := {
  data : list Byte.byte;
  headers : list (string * BinaryData.header_value);
}.

Definition make_response (body : list Byte.byte)
    (hs : list (string * BinaryData.header_value)) : http_response :=
  {| data := body; headers := hs |}.

Definition content_disposition (filename : string) : string :=
  "attachment; filename=" +:+ filename.

(** Five bytes. *)
Definition png_bytes : list Byte.byte :=
  [Byte.x89; Byte.x50; Byte.x4e; Byte.x47; Byte.x0d].

Definition sample_rules : pydict :=
  [ ("tags", PDict [("type", PStr "list"); ("required", PBool true)]);
    ("name", PDict [("type", PStr "string"); ("default", PStr "x")]) ].

Definition sample_validator : @CerberusValidator.t ReferenceValidator.cerberus :=
  CerberusValidator.init (CerberusValidator.SDict sample_rules) false.

(** Rules with a field that declares no type. *)
Definition untyped_rules : pydict :=
  [ ("tags", PDict [("type", PStr "list")]);
    ("note", PDict [("required", PBool true)]);
    ("name", PDict [("type", PStr "string")]) ].

Definition untyped_validator : @CerberusValidator.t ReferenceValidator.cerberus :=
  CerberusValidator.init (CerberusValidator.SDict untyped_rules) false.

(** [BasePlugin.operation_helper] as the [apispec] library has it. *)
Definition not_implemented :
  pyval → option (list (string * nat)) → gmap string pyval
  → gmap nat RestMethodSecurityPlugin.obj
  → result (gmap nat RestMethodSecurityPlugin.obj) :=
  λ _ _ _ _, Raise (Foreign "PluginMethodNotImplementedError").

(** Two operations: one without a security list, one whose list is an
    object of the store. *)
Definition sample_store : gmap nat RestMethodSecurityPlugin.obj :=
  {[ 0 := RestMethodSecurityPlugin.ODict
            [("summary", RestMethodSecurityPlugin.Val (PStr "list"))];
     1 := RestMethodSecurityPlugin.ODict
            [("security", RestMethodSecurityPlugin.Ref 5)];
     5 := RestMethodSecurityPlugin.OList
            [RestMethodSecurityPlugin.Val (PDict [("oauth", PList [])])] ]}.

End Samples.

(** * Properties *)

(** ** Dictionaries and loops *)

Section dict_facts.
Context {V : Type}.
Implicit Types (k : string) (d : list (string * V)).

Lemma dict_get_set_eq k (v : V) d : dict_get k (dict_set k v d) = Some v.
Proof.
  induction d as [|[k' v'] d IH]; simpl.
  - by rewrite String.eqb_refl.
  - destruct (String.eqb k' k) eqn:E; simpl.
    + by rewrite String.eqb_refl.
    + by rewrite E.
Qed.

Lemma dict_get_set_ne k k' (v : V) d :
  k ≠ k' → dict_get k' (dict_set k v d) = dict_get k' d.
Proof.
  intros Hne. induction d as [|[k0 v0] d IH]; simpl.
  - destruct (String.eqb k k') eqn:E; [|done].
    apply String.eqb_eq in E. congruence.
  - destruct (String.eqb k0 k) eqn:E; simpl.
    + apply String.eqb_eq in E. subst k0.
      destruct (String.eqb k k') eqn:E'; [|done].
      apply String.eqb_eq in E'. congruence.
    + by rewrite IH.
Qed.

Lemma dict_mem_cons k k0 (v0 : V) d :
  dict_mem k ((k0, v0) :: d) = String.eqb k0 k || dict_mem k d.
Proof. unfold dict_mem. cbn. by destruct (String.eqb k0 k). Qed.

Lemma dict_mem_set k k0 (v0 : V) d :
  dict_mem k (dict_set k0 v0 d) = String.eqb k0 k || dict_mem k d.
Proof.
  unfold dict_mem. destruct (String.eqb k0 k) eqn:E.
  - apply String.eqb_eq in E as ->. by rewrite dict_get_set_eq.
  - rewrite dict_get_set_ne; [done|]. intros ->. by rewrite String.eqb_refl in E.
Qed.
End dict_facts.

Lemma foldlM_cons {S A} (body : S → A → result S) st x xs :
  foldlM body st (x :: xs) = (st' ← body st x; foldlM body st' xs).
Proof. done. Qed.

(** ** The decorator [method] *)

Section route_facts.
Import RestApi.
Implicit Types (h : gmap loc (list string)) (spec : arg * arg).

(** The accumulator [_routes] is only ever appended to. *)
Lemma route_step_acc cors h acc spec :
  (route_step cors (h, acc) spec).1 = (route_step cors (h, []) spec).1 ∧
  (route_step cors (h, acc) spec).2 = acc ++ (route_step cors (h, []) spec).2.
Proof.
  unfold route_step.
  destruct (cors && _); [destruct (append _ _ _)|]; done.
Qed.

Lemma verbs_of_entries (ps : list string) (vs : list string) :
  (map (λ m, (ps, m)) vs).*2 = vs.
Proof. induction vs as [|v vs IH]; [done | csimpl; by rewrite IH]. Qed.

Lemma route_step_verbs cors h spec :
  (route_step cors (h, []) spec).2.*2 = normalized_verbs cors h spec.
Proof.
  unfold route_step, normalized_verbs, given_verbs.
  destruct spec as [ps vs]; cbn [fst snd app].
  destruct (cors && _).
  - destruct vs as [s|l]; cbn [as_list append contents snd app];
      rewrite verbs_of_entries; [done|].
    by rewrite lookup_total_insert_eq.
  - cbn [snd app]. by rewrite verbs_of_entries.
Qed.

Lemma normalized_verbs_options cors h spec :
  "OPTIONS" ∈ normalized_verbs cors h spec ↔
  cors = true ∨ "OPTIONS" ∈ given_verbs h spec.
Proof.
  unfold normalized_verbs.
  destruct cors; simpl.
  - case_bool_decide; simpl; [tauto|].
    rewrite elem_of_app, list_elem_of_singleton. tauto.
  - split; [tauto | intros [?|?]; done].
Qed.

(** Appending [OPTIONS] to a list that later specifications share does
    not change the verbs they register: the test finds it there. *)
Lemma normalized_verbs_insert cors h l spec :
  cors = true → "OPTIONS" ∉ h !!! l →
  normalized_verbs cors (<[l := (h !!! l) ++ ["OPTIONS"]]> h) spec
  = normalized_verbs cors h spec.
Proof.
  intros -> Hl. unfold normalized_verbs, given_verbs.
  destruct spec as [ps [s|l']]; simpl; [done|].
  destruct (decide (l = l')) as [<-|Hne].
  - rewrite lookup_total_insert_eq.
    rewrite (bool_decide_eq_true_2 ("OPTIONS" ∈ (h !!! l) ++ ["OPTIONS"])).
    2:{ rewrite elem_of_app, list_elem_of_singleton. tauto. }
    by rewrite (bool_decide_eq_false_2 _ Hl).
  - by rewrite lookup_total_insert_ne.
Qed.

Lemma normalized_paths_insert h l xs spec :
  spec.1 ≠ ListRef l →
  normalized_paths (<[l := xs]> h) spec = normalized_paths h spec.
Proof.
  unfold normalized_paths. destruct spec as [[s|l'] vs]; cbn [fst as_list contents].
  - done.
  - intros Hne. rewrite lookup_total_insert_ne; [done | congruence].
Qed.

(** The only change a step makes to the store. *)
Lemma route_step_store cors h spec :
  (route_step cors (h, []) spec).1 = h ∨
  ∃ l, spec.2 = ListRef l ∧ cors = true ∧ ("OPTIONS" ∉ h !!! l) ∧
       (route_step cors (h, []) spec).1 = <[l := (h !!! l) ++ ["OPTIONS"]]> h.
Proof.
  unfold route_step. destruct spec as [ps vs]; simpl.
  destruct cors; simpl; [|by left].
  case_bool_decide as Hin; simpl; [by left|].
  destruct vs as [s|l]; simpl; [by left|].
  right. exists l. done.
Qed.

Lemma route_step_routes cors h spec :
  (cors = true → ∀ l, spec.1 = ListRef l → spec.2 ≠ ListRef l) →
  (route_step cors (h, []) spec).2
  = map (λ m, (normalized_paths h spec, m)) (normalized_verbs cors h spec).
Proof.
  intros Hdis.
  unfold route_step, normalized_verbs, normalized_paths, given_verbs.
  destruct spec as [ps vs]; cbn [fst snd app] in *.
  destruct (cors && _) eqn:E; cbn [snd app]; [|done].
  apply andb_true_iff in E as [-> _].
  destruct vs as [s|l]; cbn [as_list append contents snd]; [done|].
  rewrite lookup_total_insert_eq.
  destruct ps as [p|l']; cbn [as_list contents]; [done|].
  rewrite lookup_total_insert_ne; [done|].
  intros Heq. subst l'. by apply (Hdis eq_refl l).
Qed.

(** The verbs of all entries, read off the store the loop started from. *)
Lemma build_routes_verbs_gen cors routes : ∀ h0 h acc,
  (∀ spec, normalized_verbs cors h spec = normalized_verbs cors h0 spec) →
  (foldl (route_step cors) (h, acc) routes).2.*2
  = acc.*2 ++ flat_map (normalized_verbs cors h0) routes.
Proof.
  induction routes as [|spec routes IH]; intros h0 h acc Hh; cbn [foldl flat_map].
  - by rewrite app_nil_r.
  - pose proof (route_step_acc cors h acc spec) as [E1 E2].
    destruct (route_step cors (h, acc) spec) as [h' acc'].
    cbn [fst snd] in E1, E2. subst h' acc'.
    rewrite (IH h0).
    + rewrite fmap_app, route_step_verbs, Hh. by rewrite <-app_assoc.
    + intros spec'. rewrite <-Hh.
      destruct (route_step_store cors h spec) as [->|(l & _ & Hc & Hl & ->)]; [done|].
      by rewrite normalized_verbs_insert.
Qed.

Lemma build_routes_verbs cors routes h :
  (build_routes cors routes h).2.*2 = flat_map (normalized_verbs cors h) routes.
Proof. unfold build_routes. by rewrite (build_routes_verbs_gen _ _ h). Qed.

(** The entries themselves, as long as the list appended to is not one
    of the path lists still to be read. *)
Lemma build_routes_gen cors routes : ∀ h0 h acc,
  (cors = true → ∀ l, ListRef l ∈ routes.*1 → ListRef l ∉ routes.*2) →
  (∀ spec, spec ∈ routes → normalized_paths h spec = normalized_paths h0 spec) →
  (∀ spec, normalized_verbs cors h spec = normalized_verbs cors h0 spec) →
  (foldl (route_step cors) (h, acc) routes).2
  = acc ++ routes_per_verb cors h0 routes.
Proof.
  unfold routes_per_verb.
  induction routes as [|spec routes IH]; intros h0 h acc Hdis Hp Hv;
    cbn [foldl flat_map].
  - by rewrite app_nil_r.
  - pose proof (route_step_acc cors h acc spec) as [E1 E2].
    destruct (route_step cors (h, acc) spec) as [h' acc'].
    cbn [fst snd] in E1, E2. subst h' acc'.
    rewrite (IH h0).
    + rewrite route_step_routes, Hv, Hp, <-app_assoc; [done | by left |].
      intros Hc l Hl1 Hl2. apply (Hdis Hc l); csimpl; rewrite ?Hl1, ?Hl2; by left.
    + intros Hc l Hl1 Hl2. apply (Hdis Hc l); csimpl; by right.
    + intros spec' Hin. rewrite <-Hp by (by right).
      destruct (route_step_store cors h spec) as [->|(l & Hs & Hc & Hl & ->)]; [done|].
      apply normalized_paths_insert. intros Hl'.
      apply (Hdis Hc l); csimpl; [|rewrite Hs; by left].
      right. apply list_elem_of_fmap. by exists spec'.
    + intros spec'. rewrite <-Hv.
      destruct (route_step_store cors h spec) as [->|(l & _ & Hc & Hl & ->)]; [done|].
      by rewrite normalized_verbs_insert.
Qed.

Lemma build_routes_per_verb cors routes h :
  (cors = true → ∀ l, ListRef l ∈ routes.*1 → ListRef l ∉ routes.*2) →
  (build_routes cors routes h).2 = routes_per_verb cors h routes.
Proof. intros Hdis. unfold build_routes. by rewrite (build_routes_gen _ _ h). Qed.

Lemma make_routing_routes rs ip op (kw : gmap string pyval) :
  kw !! "routes" = None →
  make_routing rs ip op kw !! "routes" = Some (routes_val rs).
Proof.
  intros Hkw. unfold make_routing.
  rewrite lookup_union_r by done. by rewrite lookup_insert_eq.
Qed.

Lemma make_routing_kw rs ip op (kw : gmap string pyval) k v :
  kw !! k = Some v → make_routing rs ip op kw !! k = Some v.
Proof. intros Hkw. unfold make_routing. by apply lookup_union_Some_l. Qed.

(** No call of [method] puts one of its own parameter names into [kw]:
    Python binds such a keyword to the parameter. *)
Lemma method_kw_excludes_parameters n keywords kw :
  method_kw n keywords = Ok kw →
  kw !! "routes" = None ∧ kw !! "input_param" = None ∧ kw !! "output_param" = None.
Proof.
  unfold method_kw. repeat (case_match; try done).
  intros [= <-]. repeat split.
  - by rewrite lookup_delete_eq.
  - rewrite lookup_delete_ne by done. by rewrite lookup_delete_eq.
  - do 2 rewrite lookup_delete_ne by done. by rewrite lookup_delete_eq.
Qed.

(** The condition is Python's truth test: an empty string for [cors] does
    not add [OPTIONS]. *)
Example empty_cors_is_not_set :
  cors_set {["cors" := PStr ""]} = false ∧ cors_set {["cors" := PStr "*"]} = true.
Proof. by vm_compute. Qed.

(** A list passed both as the paths and as the verbs is read as paths
    after [OPTIONS] was appended to it. *)
Example paths_list_shared_with_verbs :
  (build_routes true [(ListRef 0, ListRef 0)] {[0 := ["x"]]}).2
  = [(["x"; "OPTIONS"], "x"); (["x"; "OPTIONS"], "OPTIONS")].
Proof. by vm_compute. Qed.
End route_facts.

Section decorator_facts.
Import RestApi.
Context {Args World Ret : Type}.
Implicit Types (f : @callable Args World Ret) (kw : gmap string pyval).

Lemma method_routing routes ip op kw f h :
  routing (method routes ip op kw f h).1
  = make_routing (build_routes (cors_set kw) routes h).2 ip op kw.
Proof. unfold method, decorator. by destruct (build_routes _ _ _). Qed.

(** Claim C1, as amended. The ["routes"] entry of the routing metadata
    holds, for each route specification in order, one entry per verb of
    its normalized verb list ([OPTIONS] appended when [cors] is set and it
    is not listed), and each entry pairs the whole normalized path list
    with that verb. Nothing is flattened into single paths and nothing is
    deduplicated. This holds when the options do not themselves carry a
    ["routes"] key and, if [cors] is set, no list object is passed both as
    a path list and as a verb list. *)
Theorem routes_group_paths_per_verb routes ip op kw f h :
  (cors_set kw = true → ∀ l, ListRef l ∈ routes.*1 → ListRef l ∉ routes.*2) →
  kw !! "routes" = None →
  routing (method routes ip op kw f h).1 !! "routes"
  = Some (routes_val (routes_per_verb (cors_set kw) h routes)).
Proof.
  intros Hdis Hkw. rewrite method_routing, make_routing_routes by done.
  by rewrite build_routes_per_verb.
Qed.

(** Claim C8. For every route specification the loop processes, whatever
    the store and the routes gathered so far: [OPTIONS] is among the verbs
    it registers exactly when [cors] is set (truthy) or [OPTIONS] is among
    the verbs given; the verbs registered are the verbs given, with
    [OPTIONS] appended once at the end when [cors] is set and it is not
    among them, and the entries are made from that extended list. For a
    whole decoration with at least one route specification, [OPTIONS] is a
    registered verb exactly when [cors] is set or some specification lists
    it. *)
Theorem options_registered_iff_cors kw :
  (∀ spec h acc,
     let registered := (route_step (cors_set kw) (h, []) spec).2.*2 in
     (route_step (cors_set kw) (h, acc) spec).2
     = acc ++ (route_step (cors_set kw) (h, []) spec).2 ∧
     ("OPTIONS" ∈ registered ↔
      cors_set kw = true ∨ "OPTIONS" ∈ given_verbs h spec) ∧
     registered
     = (if cors_set kw && negb (bool_decide ("OPTIONS" ∈ given_verbs h spec))
        then given_verbs h spec ++ ["OPTIONS"] else given_verbs h spec)) ∧
  (∀ routes h, routes ≠ [] →
     "OPTIONS" ∈ (build_routes (cors_set kw) routes h).2.*2 ↔
     cors_set kw = true ∨ ∃ spec, spec ∈ routes ∧ "OPTIONS" ∈ given_verbs h spec).
Proof.
  split.
  - intros spec h acc registered. subst registered.
    rewrite route_step_verbs. split; [apply route_step_acc|].
    split; [apply normalized_verbs_options | done].
  - intros routes h Hne. rewrite build_routes_verbs, list_elem_of_In, in_flat_map.
    setoid_rewrite <-list_elem_of_In. setoid_rewrite normalized_verbs_options.
    split.
    + intros (spec & Hin & [Hc|Hg]); [by left | right; eauto].
    + destruct routes as [|spec0 routes]; [done|].
      intros [Hc|(spec & Hin & Hg)].
      * exists spec0. split; [by left | by left].
      * exists spec. eauto.
Qed.

(** Claim C9. Calling the wrapper with any arguments, in any state of the
    world, gives what the decorated function gives: the same value or the
    same exception, and the same effects. The decorated function itself
    is kept, unchanged, as [original_func]. *)
Theorem wrapper_behaves_as_original routes ip op kw f h :
  let w := (method routes ip op kw f h).1 in
  (∀ args world, call w args world = f args world) ∧ original_func w = f.
Proof.
  unfold method, decorator. destruct (build_routes _ _ _) as [h' rs]. cbn.
  split; [|done]. intros args world. unfold response_wrap.
  by destruct (f args world).
Qed.

End decorator_facts.

Section decorator_runs.
Import RestApi Samples.

Lemma routes_group_paths_per_verb_witness :
  let h : gmap nat (list string) := {[0 := ["/a"; "/b"]; 1 := ["GET"; "POST"]]} in
  let routes := [(ListRef 0, ListRef 1); (Str "/c", ListRef 1)] in
  let kw : gmap string pyval := {["cors" := PStr "*"]} in
  routing (method routes PNone PNone kw no_handler h).1 !! "routes"
  = Some (routes_val
            [(["/a"; "/b"], "GET"); (["/a"; "/b"], "POST"); (["/a"; "/b"], "OPTIONS");
             (["/c"], "GET"); (["/c"], "POST"); (["/c"], "OPTIONS")]).
Proof.
  intros h routes kw.
  rewrite (routes_group_paths_per_verb routes PNone PNone kw no_handler h).
  - reflexivity.
  - intros _ l Hp Hv. vm_compute in Hp, Hv.
    apply list_elem_of_In in Hp, Hv. simpl in Hp, Hv.
    destruct Hp as [Hp|[Hp|[]]]; [|discriminate Hp].
    destruct Hv as [Hv|[Hv|[]]]; congruence.
  - reflexivity.
Defined.

(** Claim C1 as it is worded fails: two paths under one verb make one
    entry, not two pairs, whether a pair is read as a tuple of two strings
    or as an entry with a single path; and a verb listed twice is
    registered twice. *)
Lemma routes_flat_pairs_counterexample :
  (let h : gmap nat (list string) := {[0 := ["/a"; "/b"]]} in
   let routes := [(ListRef 0, Str "GET")] in
   let entry := routing (method routes PNone PNone ∅ no_handler h).1 !! "routes" in
   entry = Some (routes_val [(["/a"; "/b"], "GET")]) ∧
   spec_routes false h routes = [("/a", "GET"); ("/b", "GET")] ∧
   entry ≠ Some (pairs_val (spec_routes false h routes)) ∧
   entry ≠ Some (routes_val (single_pair <$> spec_routes false h routes))) ∧
  (let h : gmap nat (list string) := {[0 := ["GET"; "GET"]]} in
   let routes := [(Str "/a", ListRef 0)] in
   let entry := routing (method routes PNone PNone ∅ no_handler h).1 !! "routes" in
   entry = Some (routes_val [(["/a"], "GET"); (["/a"], "GET")]) ∧
   spec_routes false h routes = [("/a", "GET")] ∧
   entry ≠ Some (pairs_val (spec_routes false h routes)) ∧
   entry ≠ Some (routes_val (single_pair <$> spec_routes false h routes))).
Proof. repeat split; vm_compute; (reflexivity || intros [=]). Qed.

Lemma options_registered_iff_cors_witness :
  let kw : gmap string pyval := {["cors" := PStr "*"]} in
  let routes := [(Str "/a", Str "GET")] in
  "OPTIONS" ∈ (build_routes (cors_set kw) routes ∅).2.*2 ∧
  (route_step (cors_set kw) (∅, []) (Str "/a", Str "GET")).2.*2 = ["GET"; "OPTIONS"].
Proof.
  intros kw routes.
  destruct (options_registered_iff_cors kw) as [Hstep Hall]. split.
  - apply (Hall routes ∅); [discriminate | by left].
  - destruct (Hstep (Str "/a", Str "GET") ∅ []) as (_ & _ & ->). reflexivity.
Defined.


End decorator_runs.

(** ** [BinaryData] *)

Section binary_data_facts.
Import BinaryData.
Context {Response Service : Type}.
Variable make_response :
  list Byte.byte → list (string * header_value) → Response.
Variable content_disposition : string → string.

(** Claim C6. For raw bytes, [to_response] is the response made from the
    bytes and exactly four headers, in this order: [Content-Type], which
    is the declared media type when exactly one is declared and the
    wildcard otherwise; [X-Content-Type-Options: nosniff];
    [Content-Disposition], the one for the name [file]; and
    [Content-Length], the number of bytes. A result that is a response
    already is returned as it is. A media type given alone to the
    constructor is the single declared one. *)
Theorem raw_payload_response_headers (self : BinaryData.t) (service : Service) :
  (∀ data, ∃ mediatype,
     to_response make_response content_disposition self service (RawBytes data)
     = make_response data
         [ ("Content-Type", HStr mediatype);
           ("X-Content-Type-Options", HStr "nosniff");
           ("Content-Disposition", HStr (content_disposition "file"));
           ("Content-Length", HInt (length data)) ] ∧
     (∀ m, _mediatypes self = [m] → mediatype = m) ∧
     (length (_mediatypes self) ≠ 1 → mediatype = "*/*")) ∧
  (∀ r, to_response make_response content_disposition self service (IsResponse r) = r) ∧
  (∀ m required, _mediatypes (init (OneType m) required) = [m]).
Proof.
  split; [|done]. intros data.
  unfold to_response, _to_http_response.
  destruct (_mediatypes self) as [|m [|m' ms]] eqn:E; eexists;
    (split; [reflexivity|]); split; try done; congruence.
Qed.
End binary_data_facts.

Lemma raw_payload_response_headers_witness :
  BinaryData.to_response Samples.make_response Samples.content_disposition
    (BinaryData.init (BinaryData.OneType "image/png") false) ()
    (BinaryData.RawBytes Samples.png_bytes)
  = Samples.make_response Samples.png_bytes
      [ ("Content-Type", BinaryData.HStr "image/png");
        ("X-Content-Type-Options", BinaryData.HStr "nosniff");
        ("Content-Disposition", BinaryData.HStr "attachment; filename=file");
        ("Content-Length", BinaryData.HInt 5) ].
Proof.
  destruct (raw_payload_response_headers Samples.make_response
              Samples.content_disposition
              (BinaryData.init (BinaryData.OneType "image/png") false) ())
    as (Hraw & _ & Hinit).
  destruct (Hraw Samples.png_bytes) as (mediatype & -> & Hone & _).
  by rewrite (Hone "image/png" (Hinit "image/png" false)).
Defined.

(** ** [CerberusValidator] *)

Section cerberus_facts.
Import CerberusValidator.
Context `{Host}.

Lemma inline_validator (self : t) service rules direction :
  _schema self = SDict rules → direction ∈ ["input"; "output"] →
  get_cerberus_validator self service direction
  = Ok (new_validator (PDict rules) true).
Proof.
  intros Hs Hd. unfold get_cerberus_validator.
  rewrite bool_decide_eq_true_2 by done. by rewrite Hs.
Qed.

(** Claim C2. Whenever the validator obtained for the direction rejects
    the value ([validate] returns [False]): [from_params] raises a
    [UserError] whose message is ["BadRequest %s"] filled with the
    validator's [errors]; [to_response] raises a [SystemError] whose
    message is ["Invalid Response %s"] filled with the validator's
    [errors], and never a [UserError]. The two exceptions are of
    different classes whatever their messages. *)
Theorem validation_failures_by_direction (self : t) (service : Service) :
  (∀ params v v',
     get_cerberus_validator self service "input" = Ok v →
     validate v params = Ok (false, v') →
     from_params self service params
     = Raise (UserError {| template := "BadRequest %s"; msg_arg := errors v' |})) ∧
  (∀ res v v',
     get_cerberus_validator self service "output" = Ok v →
     validate v res = Ok (false, v') →
     to_response self service res
     = Raise (SystemError {| template := "Invalid Response %s";
                             msg_arg := errors v' |}) ∧
     ∀ m, to_response self service res ≠ Raise (UserError m)) ∧
  (∀ m m', UserError m ≠ SystemError m').
Proof.
  split; [|split; [|done]].
  - intros params v v' Hv Hval. unfold from_params.
    rewrite Hv. cbn. by rewrite Hval.
  - intros res v v' Hv Hval. unfold to_response.
    rewrite Hv. cbn. rewrite Hval. cbn. split; [done|]. by intros m [=].
Qed.

(** For an inline rule mapping, what [from_params] returns is the
    document held by a validator built with [purge_unknown=True]; what
    that document holds is the library's doing. *)
Lemma inline_schema_document (self : t) (service : Service) rules params v :
  _schema self = SDict rules →
  validate (new_validator (PDict rules) true) params = Ok (true, v) →
  from_params self service params = Ok (document v).
Proof.
  intros Hs Hval.
  unfold from_params. rewrite (inline_validator _ _ rules) by (done || by left).
  cbn. by rewrite Hval.
Qed.

Lemma store_get_last (heap : param_store) d :
  store_get (heap ++ [d]) (length heap) = d.
Proof. unfold store_get. by rewrite list_lookup_middle. Qed.

Lemma store_set_last (heap : param_store) d d' :
  <[length heap := d']> (heap ++ [d]) = heap ++ [d'].
Proof. induction heap as [|x heap IH]; [done | csimpl; by f_equal]. Qed.

(** One turn of the loop: a dictionary is added to the store, the list
    refers to it, and its name is the documented one. *)
Lemma query_parameter_names js required heap parameters item :
  py_getitem "required" js = Ok (PList required) →
  typed_property item = true →
  ∃ d, query_parameter js (heap, parameters) item
       = Ok (heap ++ [d], parameters ++ [length heap]) ∧
       dict_get "name" d = Some (PStr (documented_name item)).
Proof.
  intros Hreq Hty. destruct item as [prop spec].
  unfold typed_property in Hty. cbn [snd] in Hty.
  destruct spec as [| | | | | |sp|]; try done.
  apply andb_true_iff in Hty as [Hmem Hsch].
  unfold dict_mem in Hmem. destruct (dict_get "type" sp) as [ty|] eqn:Ety; [|done].
  unfold documented_name, query_parameter.
  rewrite Hreq. cbn [mbind result_bind py_contains py_get py_getitem fst snd].
  unfold dict_getitem. rewrite Ety.
  assert (Hcase : (∃ s, dict_get_default "schema" PNone sp = PDict s) ∨
                  truthy (dict_get_default "schema" PNone sp) = false).
  { unfold dict_get_default. destruct (dict_get "schema" sp) as [v|]; [|by right].
    destruct v; cbn [default]; eauto; right; by apply negb_true_iff. }
  destruct (is_str "array" ty) eqn:Earr;
  destruct (dict_mem "enum" sp) eqn:Eenum;
  [ unfold dict_mem in Eenum; destruct (dict_get "enum" sp) as [enum|]; [|done]
  | | unfold dict_mem in Eenum; destruct (dict_get "enum" sp) as [enum|]; [|done] | ];
  destruct (truthy (dict_get_default "items" PNone sp));
  (destruct Hcase as [[s ->] | ->]; [destruct (truthy (PDict s))|]);
  cbn; rewrite ?Earr; cbn; rewrite ?store_get_last; cbn;
  rewrite ?store_set_last; eexists; (split; [reflexivity|]); reflexivity.
Qed.

Lemma query_parameters_fold js required items : ∀ heap parameters,
  py_getitem "required" js = Ok (PList required) →
  forallb typed_property items = true →
  ∃ ds, foldlM (query_parameter js) (heap, parameters) items
        = Ok (heap ++ ds, parameters ++ seq (length heap) (length ds)) ∧
        dict_get "name" <$> ds
        = (λ item, Some (PStr (documented_name item))) <$> items.
Proof.
  induction items as [|item items IH]; intros heap parameters Hreq Hty.
  - exists []. by rewrite !app_nil_r.
  - cbn [forallb] in Hty. apply andb_true_iff in Hty as [Hitem Hitems].
    destruct (query_parameter_names js required heap parameters item Hreq Hitem)
      as (d & Hstep & Hname).
    destruct (IH (heap ++ [d]) (parameters ++ [length heap]) Hreq Hitems)
      as (ds & Hfold & Hnames).
    exists (d :: ds). split.
    + rewrite foldlM_cons, Hstep. cbn [mbind result_bind]. rewrite Hfold.
      rewrite <-!app_assoc, length_app. cbn [length seq app].
      by rewrite Nat.add_1_r.
    + csimpl. by rewrite Hname, Hnames.
Qed.

(** Read through its references at the end, the list is the list of the
    dictionaries made. *)
Lemma deref_all (pre ds : param_store) :
  deref (pre ++ ds) (seq (length pre) (length ds)) = ds.
Proof.
  unfold deref. revert pre. induction ds as [|d ds IH]; intros pre; [done|].
  cbn [length seq map]. f_equal.
  - unfold store_get. by rewrite list_lookup_middle.
  - specialize (IH (pre ++ [d])). rewrite <-app_assoc, length_app in IH.
    cbn [length app] in IH. by rewrite Nat.add_1_r in IH.
Qed.

Lemma query_parameters_names js properties :
  object_schema js properties →
  ∃ ps, query_parameters_of js = Ok ps ∧
        dict_get "name" <$> ps
        = (λ item, Some (PStr (documented_name item))) <$> properties.
Proof.
  intros (Hprops & [required Hreq] & Hty). unfold query_parameters_of.
  rewrite Hprops. cbn [mbind result_bind py_items].
  destruct (query_parameters_fold js required properties [] [] Hreq Hty)
    as (ds & -> & Hnames).
  exists ds. cbn [mbind result_bind]. split; [|done].
  f_equal. apply (deref_all [] ds).
Qed.

(** Claim C7. When the converted input schema is a dictionary with a
    ["required"] list and typed ["properties"], the list of query
    parameters has one entry per property, in order, and the entry of a
    property is named after it: the property's name followed by ["[]"]
    when its type is ["array"], and the property's name as it is
    otherwise. *)
Theorem array_fields_documented_with_brackets (self : t) (service : Service)
    js properties :
  to_json_schema self service "input" = Ok js →
  object_schema js properties →
  ∃ ps, to_openapi_query_parameters self service = Ok ps ∧
        length ps = length properties ∧
        ∀ i prop spec, properties !! i = Some (prop, spec) →
          ∃ p ty, ps !! i = Some p ∧
                  py_getitem "type" spec = Ok ty ∧
                  dict_get "name" p
                  = Some (PStr (if is_str "array" ty then prop +:+ "[]" else prop)).
Proof.
  intros Hjs Hobj. destruct (query_parameters_names js properties Hobj)
    as (ps & Hps & Hnames).
  exists ps. unfold to_openapi_query_parameters. rewrite Hjs.
  split; [done|]. split.
  { apply (f_equal length) in Hnames. by rewrite !length_fmap in Hnames. }
  intros i prop spec Hi.
  apply (f_equal (.!! i)) in Hnames. rewrite !list_lookup_fmap, Hi in Hnames.
  destruct (ps !! i) as [p|]; [|done]. cbn in Hnames.
  destruct Hobj as (_ & _ & Hty).
  assert (Hspec : typed_property (prop, spec) = true).
  { rewrite forallb_forall in Hty. apply Hty, list_elem_of_In.
    by eapply list_elem_of_lookup_2. }
  unfold typed_property in Hspec. cbn [snd] in Hspec.
  destruct spec as [| | | | | |sp|]; try done.
  apply andb_true_iff in Hspec as [Hmem _]. unfold dict_mem in Hmem.
  unfold documented_name in Hnames. cbn [py_getitem fst snd] in *.
  unfold dict_getitem in *.
  destruct (dict_get "type" sp) as [ty|]; [|done].
  exists p, ty. split; [done|]. split; [done|]. congruence.
Qed.

(** A property description without a ["type"] stops the whole listing. *)
Example untyped_property_raises :
  query_parameters_of
    (PDict [ ("properties", PDict [("tags", PDict [("type", PStr "array")]);
                                    ("note", PDict [])]);
             ("required", PList []) ])
  = Raise (KeyError "type").
Proof. reflexivity. Qed.
End cerberus_facts.

Section reference_runs.
Import CerberusValidator ReferenceValidator Samples.

Lemma validation_failures_by_direction_witness :
  from_params sample_validator () (PDict [("extra", PInt 1)])
  = Raise (UserError {| template := "BadRequest %s";
                        msg_arg := PDict [("tags", PList [PStr "required field"])] |}) ∧
  to_response sample_validator () (PDict [("name", PStr "n")])
  = Raise (SystemError {| template := "Invalid Response %s";
                          msg_arg := PDict [("tags", PList [PStr "required field"])] |}).
Proof.
  destruct (validation_failures_by_direction (H0 := host) sample_validator ())
    as (Hin & Hout & _).
  split.
  - exact (Hin (PDict [("extra", PInt 1)]) _ _ eq_refl eq_refl).
  - exact (proj1 (Hout (PDict [("name", PStr "n")]) _ _ eq_refl eq_refl)).
Defined.

Lemma array_fields_documented_with_brackets_witness :
  let properties :=
    [ ("tags", PDict [("type", PStr "array"); ("required", PBool true)]);
      ("name", PDict [("type", PStr "string"); ("default", PStr "x")]) ] in
  ∃ ps, to_openapi_query_parameters sample_validator () = Ok ps ∧
        length ps = length properties ∧
        ∀ i prop spec,
          properties !! i = Some (prop, spec) →
          ∃ p ty, ps !! i = Some p ∧
                  py_getitem "type" spec = Ok ty ∧
                  dict_get "name" p
                  = Some (PStr (if is_str "array" ty then prop +:+ "[]" else prop)).
Proof.
  intros properties.
  eapply (array_fields_documented_with_brackets (H0 := host) sample_validator ()
            _ properties).
  - reflexivity.
  - split; [reflexivity|]. split; [by eexists | reflexivity].
Defined.

(** The field [tags] of the sample rules is documented as [tags[]]. *)
Example tags_parameter_name :
  ∃ p q, to_openapi_query_parameters sample_validator () = Ok [p; q] ∧
         dict_get "name" p = Some (PStr "tags[]") ∧
         dict_get "name" q = Some (PStr "name").
Proof. do 2 eexists. split; [reflexivity|]. split; reflexivity. Qed.
End reference_runs.

(** ** [RestMethodSecurityPlugin] *)

Section plugin_facts.
Import RestMethodSecurityPlugin.
Implicit Types (h : gmap loc obj) (p q : loc).

(** What a turn of the loop does to the operation it is at. *)
Lemma add_security_self h m p :
  is_Some (security_of h p) →
  ∃ h1, add_security h (m, p) = Ok h1 ∧ requirement_added h h1 p.
Proof.
  unfold requirement_added, security_of, security_ref, entry_of, add_security.
  destruct (h !! p) as [[d|]|] eqn:Ep; try by intros [? [=]].
  destruct (dict_get "security" d) as [[v|s]|] eqn:Es.
  - destruct v; try by intros [? [=]].
    intros _. eexists. split; [done|].
    rewrite lookup_insert_eq, dict_get_set_eq. cbn.
    rewrite fmap_app. split; [done|]. split; [done|].
    intros k Hk. by rewrite dict_get_set_ne.
  - destruct (h !! s) as [[|xs]|] eqn:Ehs; try by intros [? [=]].
    intros _. eexists. split; [done|].
    assert (s ≠ p) by congruence.
    rewrite lookup_insert_ne, Ep, Es, lookup_insert_eq by done. done.
  - intros _. eexists. split; [done|].
    rewrite lookup_insert_eq, dict_get_set_eq. cbn.
    split; [done|]. split; [done|].
    intros k Hk. by rewrite dict_get_set_ne.
Qed.

(** What it leaves alone: another operation that has a dictionary of its
    own and does not share the list appended to. *)
Lemma add_security_frame h m p h1 q :
  add_security h (m, p) = Ok h1 →
  q ≠ p → is_Some (security_of h q) →
  (∀ s, security_ref h p = Some s → security_ref h q ≠ Some s) →
  same_operation h h1 q.
Proof.
  unfold same_operation, security_of, security_ref, entry_of, add_security.
  intros Hadd Hq Hsec Hsep.
  destruct (h !! p) as [[d|]|] eqn:Ep; try done.
  destruct (h !! q) as [[dq|]|] eqn:Eq; try by destruct Hsec as [? [=]].
  assert (Hown : ∀ d', same_operation h (<[p := ODict d']> h) q).
  { intros d'. unfold same_operation, security_of, security_ref, entry_of.
    rewrite lookup_insert_ne, Eq by done. split; [|done].
    destruct (dict_get "security" dq) as [[v|s']|]; try done.
    destruct (h !! s') as [[|xs]|] eqn:Es'; try by destruct Hsec as [? [=]].
    assert (p ≠ s') by congruence.
    by rewrite lookup_insert_ne, Es'. }
  unfold same_operation, security_of, security_ref, entry_of in Hown.
  rewrite Eq in Hown.
  destruct (dict_get "security" d) as [[v|s]|] eqn:Es.
  - destruct v; try done. injection Hadd as <-. apply Hown.
  - destruct (h !! s) as [[|xs]|] eqn:Ehs; try done. injection Hadd as <-.
    assert (s ≠ q) by congruence.
    rewrite lookup_insert_ne by done. rewrite Eq. split; [|done].
    destruct (dict_get "security" dq) as [[v|s']|]; try done.
    assert (s ≠ s') by (intros ->; by apply (Hsep s')).
    by rewrite lookup_insert_ne.
  - injection Hadd as <-. apply Hown.
Qed.

Lemma omap_agree {A B} (f g : A → option B) (l : list A) :
  (∀ x, x ∈ l → f x = g x) → omap f l = omap g l.
Proof.
  induction l as [|x l IH]; intros Hfg; [done|]. csimpl.
  rewrite (Hfg x) by (by left). rewrite IH; [done|].
  intros y Hy. apply Hfg. by right.
Qed.

(** The whole loop, over operations that each have a dictionary of their
    own and no two of which share a security list. *)
Lemma add_security_all (ops : list (string * loc)) : ∀ h,
  NoDup ops.*2 →
  Forall (λ p, is_Some (security_of h p)) ops.*2 →
  NoDup (omap (security_ref h) ops.*2) →
  ∃ h', foldlM add_security h ops = Ok h' ∧
    (∀ p, p ∈ ops.*2 → requirement_added h h' p) ∧
    (∀ q, q ∉ ops.*2 → is_Some (security_of h q) →
          (∀ s, security_ref h q = Some s → s ∉ omap (security_ref h) ops.*2) →
          same_operation h h' q).
Proof.
  induction ops as [|[m p] ops IH]; intros h Hdup Hsec Href.
  { exists h. split; [done|]. split; [by intros p ?%elem_of_nil|done]. }
  csimpl in Hdup; csimpl in Hsec; csimpl in Href.
  apply NoDup_cons in Hdup as [Hp Hdup].
  apply Forall_cons in Hsec as [Hsp Hsec].
  destruct (add_security_self h m p Hsp) as (h1 & Hstep & Hself).
  pose proof (proj1 (Forall_forall _ _) Hsec) as Hsec'. cbn beta in Hsec'.
  (* the operations still to come are not affected by this turn *)
  assert (Hsep : ∀ q s, q ∈ ops.*2 → security_ref h p = Some s →
                        security_ref h q ≠ Some s).
  { intros q s Hq Hs Hqs. rewrite Hs in Href. apply NoDup_cons in Href as [Hn _].
    apply Hn, list_elem_of_omap. eauto. }
  assert (Hrest : ∀ q, q ∈ ops.*2 → same_operation h h1 q).
  { intros q Hq. eapply add_security_frame; [done| |by apply Hsec'|by eauto].
    intros ->. done. }
  assert (Hrefs : omap (security_ref h1) ops.*2 = omap (security_ref h) ops.*2).
  { apply omap_agree. intros q Hq. apply (Hrest q Hq). }
  destruct (IH h1) as (h' & Hfold & Hadded & Hframe).
  { done. }
  { apply Forall_forall. intros q Hq. destruct (Hrest q Hq) as [-> _].
    by apply Hsec'. }
  { rewrite Hrefs. destruct (security_ref h p); [by apply NoDup_cons in Href as []|done]. }
  exists h'. split; [by rewrite foldlM_cons, Hstep|]. csimpl. split.
  - intros q [->|Hq]%elem_of_cons.
    + destruct Hself as (Hs1 & Hr1 & He1).
      destruct (Hframe p) as (Hs2 & Hr2 & He2); [done| | |].
      { rewrite Hs1. destruct Hsp as [? ->]. by eexists. }
      { intros s Hs. rewrite Hrefs. rewrite Hr1 in Hs. rewrite Hs in Href.
        by apply NoDup_cons in Href as []. }
      split; [congruence|]. split; [congruence|].
      intros k Hk. by rewrite He2, He1.
    + destruct (Hadded q Hq) as (Hs2 & Hr2 & He2).
      destruct (Hrest q Hq) as (Hs1 & Hr1 & He1).
      split; [congruence|]. split; [congruence|].
      intros k Hk. by rewrite He2, He1.
  - intros q Hq Hsq Hqs. apply not_elem_of_cons in Hq as [Hqp Hq].
    assert (Hq1 : same_operation h h1 q).
    { eapply add_security_frame; [done..|].
      intros s Hs Hs'. apply (Hqs s Hs'). rewrite Hs. by left. }
    destruct Hq1 as (Hs1 & Hr1 & He1).
    destruct (Hframe q) as (Hs2 & Hr2 & He2); [done|congruence| |].
    { intros s Hs. rewrite Hrefs. rewrite Hr1 in Hs.
      intros Hin. apply (Hqs s Hs). destruct (security_ref h p); [by right|done]. }
    split; [congruence|]. split; [congruence|].
    intros k. by rewrite He2, He1.
Qed.

Variable base_operation_helper :
  pyval → option (list (string * loc)) → gmap string pyval → gmap loc obj
  → result (gmap loc obj).


(** Claim C5, as amended. When the keyword arguments hold no routing
    metadata (none at all, or an empty one), the helper defers to the
    base helper: it calls it with the path, the operations and the
    keyword arguments it was given, in the state it was called in, and
    the exception with which the base helper answers, as the one of
    [apispec] always does to say that it has nothing to add, is the
    helper's own outcome. This holds for every value of the operations
    mapping, the missing and the empty one included, and whatever
    [default_auth] the specification has: nothing is read from the
    routing metadata and no operation is given a requirement. *)
Theorem helper_without_routing_defers (self : t) path operations kwargs h e :
  truthy (default PNone (kwargs !! "routing")) = false →
  base_operation_helper path operations kwargs h = Raise e →
  operation_helper base_operation_helper self path operations kwargs h = Raise e.
Proof.
  intros Hr Hbase. unfold operation_helper.
  cbn [default from_option id] in Hr |- *. rewrite Hr. cbn [negb].
  by rewrite Hbase.
Qed.
End plugin_facts.

Section plugin_runs.
Import RestMethodSecurityPlugin Samples.


(** The default of the specification stands in for a missing ["auth"]. *)
Example default_auth_is_inherited :
  ∃ h', operation_helper not_implemented
          {| spec_params := [("default_auth", PStr "api_key")] |} PNone
          (Some [("get", 0)]) {["routing" := PDict [("routes", PList [])]]}
          sample_store = Ok h' ∧
        security_of h' 0 = Some [Val api_key_requirement].
Proof. eexists. split; by vm_compute. Qed.

(** When two verbs are given one and the same dictionary, it is appended
    to twice. *)
Example shared_operation_dictionary :
  let kwargs : gmap string pyval :=
    {["routing" := PDict [("auth", PStr "api_key")]]} in
  ∃ h', operation_helper not_implemented {| spec_params := [] |} PNone
          (Some [("get", 0); ("post", 0)]) kwargs sample_store = Ok h' ∧
        security_of h' 0 = Some [Val api_key_requirement; Val api_key_requirement].
Proof. eexists. split; by vm_compute. Qed.

Lemma helper_without_routing_defers_witness :
  let self := {| spec_params := [("default_auth", PStr "api_key")] |} in
  let kwargs : gmap string pyval := {["summary" := PStr "list"]} in
  operation_helper not_implemented self PNone
    (Some [("get", 0); ("post", 1)]) kwargs sample_store
  = Raise (Foreign "PluginMethodNotImplementedError").
Proof.
  intros self kwargs.
  apply (helper_without_routing_defers not_implemented self PNone
           (Some [("get", 0); ("post", 1)]) kwargs sample_store
           (Foreign "PluginMethodNotImplementedError")); reflexivity.
Defined.

(** Claim C5 as it is worded fails: with the base helper of [apispec],
    the helper called without routing metadata does not complete; it
    raises that helper's [PluginMethodNotImplementedError], with one
    operation, with an empty mapping and with none. *)
Lemma helper_without_routing_counterexample :
  let self := {| spec_params := [] |} in
  let raised := Raise (Foreign "PluginMethodNotImplementedError") in
  operation_helper not_implemented self PNone (Some [("get", 0)]) ∅ sample_store
  = raised ∧
  operation_helper not_implemented self PNone (Some []) ∅ sample_store = raised ∧
  operation_helper not_implemented self PNone None ∅ sample_store = raised.
Proof. intros self raised. repeat split; reflexivity. Qed.
End plugin_runs.

(** * Further properties *)

(** ** The decorator [method]: its effect on the caller's lists *)

Section route_extras.
Import RestApi.
Implicit Types (h : gmap loc (list string)) (spec : arg * arg).

(** The store after one turn of the loop. *)
Lemma route_step_store_eq cors h spec :
  (route_step cors (h, []) spec).1
  = match spec.2 with
    | ListRef l =>
        if cors && negb (bool_decide ("OPTIONS" ∈ h !!! l))
        then <[l := (h !!! l) ++ ["OPTIONS"]]> h else h
    | Str _ => h
    end.
Proof.
  unfold route_step. destruct spec as [ps [s|l]]; cbn [fst snd as_list contents].
  - by destruct (cors && _).
  - by destruct (cors && _).
Qed.

Lemma build_routes_store_gen cors routes : ∀ h acc l,
  (foldl (route_step cors) (h, acc) routes).1 !!! l
  = if cors && bool_decide (ListRef l ∈ routes.*2)
       && negb (bool_decide ("OPTIONS" ∈ h !!! l))
    then (h !!! l) ++ ["OPTIONS"] else h !!! l.
Proof.
  induction routes as [|spec routes IH]; intros h acc l; cbn [foldl].
  - cbn. by rewrite andb_false_r.
  - pose proof (route_step_acc cors h acc spec) as [E1 _].
    destruct (route_step cors (h, acc) spec) as [h' acc'].
    cbn [fst] in E1. subst h'. rewrite IH, route_step_store_eq. csimpl.
    destruct spec as [ps [s|l0]]; cbn [snd].
    + assert (Hiff : ListRef l ∈ Str s :: routes.*2 ↔ ListRef l ∈ routes.*2).
      { rewrite elem_of_cons. split; [by intros [[=]|?] | by right]. }
      by rewrite (bool_decide_ext _ _ Hiff).
    + destruct cors; cbn [andb]; [|done].
      destruct (decide (l0 = l)) as [->|Hne].
      * rewrite (bool_decide_eq_true_2 (ListRef l ∈ ListRef l :: routes.*2)) by (by left).
        destruct (decide ("OPTIONS" ∈ h !!! l)) as [Hin|Hnin].
        { rewrite !(bool_decide_eq_true_2 ("OPTIONS" ∈ h !!! l)) by done.
          cbn [negb]. by rewrite andb_false_r. }
        rewrite !(bool_decide_eq_false_2 ("OPTIONS" ∈ h !!! l)) by done.
        cbn [negb andb]. rewrite lookup_total_insert_eq.
        rewrite (bool_decide_eq_true_2 ("OPTIONS" ∈ (h !!! l) ++ ["OPTIONS"])).
        2:{ rewrite elem_of_app, list_elem_of_singleton. tauto. }
        cbn. by rewrite andb_false_r.
      * assert (Hiff : ListRef l ∈ ListRef l0 :: routes.*2 ↔ ListRef l ∈ routes.*2).
        { rewrite elem_of_cons. split; [intros [[=]|?]; by subst | by right]. }
        rewrite (bool_decide_ext _ _ Hiff).
        destruct (negb (bool_decide ("OPTIONS" ∈ h !!! l0)));
          [rewrite lookup_total_insert_ne by done|]; done.
Qed.

(** Once every verb list has [OPTIONS], the loop writes nothing. *)
Lemma build_routes_store_fixed cors routes : ∀ h acc,
  (cors = true → ∀ l, ListRef l ∈ routes.*2 → "OPTIONS" ∈ h !!! l) →
  (foldl (route_step cors) (h, acc) routes).1 = h.
Proof.
  induction routes as [|spec routes IH]; intros h acc Hopt; cbn [foldl]; [done|].
  pose proof (route_step_acc cors h acc spec) as [E1 _].
  destruct (route_step cors (h, acc) spec) as [h' acc'].
  cbn [fst] in E1. subst h'. rewrite route_step_store_eq.
  assert (Hsame : match spec.2 with
                  | ListRef l =>
                      if cors && negb (bool_decide ("OPTIONS" ∈ h !!! l))
                      then <[l := (h !!! l) ++ ["OPTIONS"]]> h else h
                  | Str _ => h
                  end = h).
  { destruct spec as [ps [s|l]]; cbn [snd]; [done|].
    destruct cors; cbn [andb]; [|done].
    rewrite bool_decide_eq_true_2; [done|]. apply Hopt; [done|]. csimpl. by left. }
  rewrite Hsame. apply IH. intros Hc l Hl. apply Hopt; [done|]. csimpl. by right.
Qed.

Lemma flat_map_agree {A B} (f g : A → list B) (l : list A) :
  (∀ x, x ∈ l → f x = g x) → flat_map f l = flat_map g l.
Proof.
  induction l as [|x l IH]; intros Hfg; [done|]. cbn [flat_map].
  rewrite (Hfg x) by (by left). rewrite IH; [done|].
  intros y Hy. apply Hfg. by right.
Qed.

(** Every entry of the routing metadata, option or computed. *)
Lemma make_routing_lookup rs ip op (kw : gmap string pyval) k :
  make_routing rs ip op kw !! k
  = match kw !! k with
    | Some v => Some v
    | None =>
        if String.eqb k "routes" then Some (routes_val rs)
        else if String.eqb k "input_param" then Some ip
        else if String.eqb k "output_param" then Some op
        else None
    end.
Proof.
  unfold make_routing.
  destruct (kw !! k) as [v|] eqn:Hk.
  - by apply lookup_union_Some_l.
  - rewrite lookup_union_r by done.
    destruct (String.eqb k "routes") eqn:E1.
    { apply String.eqb_eq in E1 as ->. by rewrite lookup_insert_eq. }
    apply String.eqb_neq in E1. rewrite lookup_insert_ne by done.
    destruct (String.eqb k "input_param") eqn:E2.
    { apply String.eqb_eq in E2 as ->. by rewrite lookup_insert_eq. }
    apply String.eqb_neq in E2. rewrite lookup_insert_ne by done.
    destruct (String.eqb k "output_param") eqn:E3.
    { apply String.eqb_eq in E3 as ->. by rewrite lookup_insert_eq. }
    apply String.eqb_neq in E3. by rewrite lookup_insert_ne.
Qed.

(** The options a call of [method] leaves in [kw] are the keywords that
    name none of its parameters. *)
Lemma method_kw_other n keywords kw k :
  method_kw n keywords = Ok kw →
  k ∉ ["routes"; "input_param"; "output_param"] →
  kw !! k = keywords !! k.
Proof.
  unfold method_kw. repeat (case_match; try done).
  intros [= <-] Hk. rewrite !lookup_delete_ne; [done|..];
    intros Heq; apply Hk; rewrite <-Heq; repeat constructor.
Qed.
End route_extras.

Section method_extras.
Import RestApi.
Context {Args World Ret : Type}.
Implicit Types (f g : @callable Args World Ret) (kw : gmap string pyval).

Lemma method_store routes ip op kw f h :
  (method routes ip op kw f h).2 = (build_routes (cors_set kw) routes h).1.
Proof. unfold method, decorator. by destruct (build_routes _ _ _). Qed.

(** Property X1. Decorating changes the caller's own lists: a list
    object passed as the verbs of some route specification gets
    [OPTIONS] appended, once, when [cors] is set and the list does not
    have it; every other list, and every list when [cors] is not set, is
    left as it was. *)
Theorem decorator_appends_options_to_callers_lists routes ip op kw f h l :
  (method routes ip op kw f h).2 !!! l
  = if cors_set kw && bool_decide (ListRef l ∈ routes.*2)
       && negb (bool_decide ("OPTIONS" ∈ h !!! l))
    then (h !!! l) ++ ["OPTIONS"] else h !!! l.
Proof. rewrite method_store. apply build_routes_store_gen. Qed.

(** Property X2. A decorator made by [method] can be applied again, to
    another function: the second application changes no list, and, when
    no list object is both a path list and a verb list under [cors], it
    attaches the same routing metadata as the first. *)
Theorem decorating_again_changes_nothing routes ip op kw f g h :
  let first := method routes ip op kw f h in
  let second := method routes ip op kw g first.2 in
  second.2 = first.2 ∧
  ((cors_set kw = true → ∀ l, ListRef l ∈ routes.*1 → ListRef l ∉ routes.*2) →
   routing second.1 = routing first.1).
Proof.
  intros first second. subst first second.
  rewrite !method_store, !method_routing, ?method_store.
  set (h1 := (build_routes (cors_set kw) routes h).1).
  assert (Hh1 : ∀ l, h1 !!! l
                = if cors_set kw && bool_decide (ListRef l ∈ routes.*2)
                     && negb (bool_decide ("OPTIONS" ∈ h !!! l))
                  then (h !!! l) ++ ["OPTIONS"] else h !!! l).
  { intros l. apply build_routes_store_gen. }
  split.
  - apply build_routes_store_fixed. intros Hc l Hl. rewrite Hh1, Hc.
    rewrite (bool_decide_eq_true_2 _ Hl). cbn [andb].
    case_bool_decide; cbn [negb]; [done|].
    rewrite elem_of_app, list_elem_of_singleton. tauto.
  - intros Hdis. f_equal. rewrite !build_routes_per_verb by done.
    unfold routes_per_verb. apply flat_map_agree. intros spec Hspec.
    assert (Hv : normalized_verbs (cors_set kw) h1 spec
                 = normalized_verbs (cors_set kw) h spec).
    { unfold normalized_verbs, given_verbs.
      destruct spec as [ps [s|l]]; cbn [snd as_list contents]; [done|].
      rewrite Hh1. destruct (cors_set kw); cbn [andb]; [|done].
      rewrite (bool_decide_eq_true_2 (ListRef l ∈ routes.*2)).
      2:{ apply list_elem_of_fmap. by exists (ps, ListRef l). }
      cbn [andb]. destruct (decide ("OPTIONS" ∈ h !!! l)) as [Hin|Hnin].
      - rewrite !(bool_decide_eq_true_2 ("OPTIONS" ∈ h !!! l)) by done. cbn [negb].
        by rewrite !(bool_decide_eq_true_2 ("OPTIONS" ∈ h !!! l)) by done.
      - rewrite !(bool_decide_eq_false_2 ("OPTIONS" ∈ h !!! l)) by done. cbn [negb].
        rewrite bool_decide_eq_true_2; [done|].
        rewrite elem_of_app, list_elem_of_singleton. tauto. }
    assert (Hp : normalized_paths h1 spec = normalized_paths h spec).
    { unfold normalized_paths.
      destruct spec as [[s|l] vs]; cbn [fst as_list contents]; [done|].
      rewrite Hh1. destruct (cors_set kw) eqn:Hc; cbn [andb]; [|done].
      rewrite (bool_decide_eq_false_2 (ListRef l ∈ routes.*2)); [done|].
      apply Hdis; [done|]. apply list_elem_of_fmap. by exists (ListRef l, vs). }
    by rewrite Hv, Hp.
Qed.

(** Property X3. The verbs of the routes made are the verbs given and
    nothing else, except [OPTIONS] under [cors]: a verb is registered
    exactly when some route specification lists it, or when it is
    [OPTIONS], [cors] is set and there is a route specification at all. *)
Theorem registered_verbs_are_the_given_ones kw routes h m :
  m ∈ (build_routes (cors_set kw) routes h).2.*2 ↔
  (∃ spec, spec ∈ routes ∧ m ∈ given_verbs h spec) ∨
  (m = "OPTIONS" ∧ cors_set kw = true ∧ routes ≠ []).
Proof.
  rewrite build_routes_verbs, list_elem_of_In, in_flat_map.
  setoid_rewrite <-list_elem_of_In. split.
  - intros (spec & Hin & Hm). unfold normalized_verbs in Hm.
    destruct (cors_set kw && _) eqn:E.
    + apply elem_of_app in Hm as [Hm|Hm%list_elem_of_singleton]; [left; eauto|].
      right. apply andb_true_iff in E as [-> _]. split; [done|]. split; [done|].
      intros ->. by apply elem_of_nil in Hin.
    + left. eauto.
  - intros [(spec & Hin & Hm)|(-> & Hc & Hne)].
    + exists spec. split; [done|]. unfold normalized_verbs.
      destruct (cors_set kw && _); [|done]. apply elem_of_app. by left.
    + destruct routes as [|spec routes]; [done|]. exists spec.
      split; [by left|]. apply normalized_verbs_options. by left.
Qed.

(** Property X5. Through the signature of [method] the computed entries
    always stand: whatever keywords a call passes, the bag [kw] it binds
    holds none of the three parameter names, so the routing metadata has
    the computed routes and the two transformers given, and under every
    other key exactly the keyword passed. *)
Theorem signature_keeps_computed_entries nargs keywords kw routes ip op f h :
  method_kw nargs keywords = Ok kw →
  let r := routing (method routes ip op kw f h).1 in
  r !! "routes" = Some (routes_val (build_routes (cors_set kw) routes h).2) ∧
  r !! "input_param" = Some ip ∧
  r !! "output_param" = Some op ∧
  ∀ k, k ∉ ["routes"; "input_param"; "output_param"] → r !! k = keywords !! k.
Proof.
  intros Hkw r. subst r. rewrite method_routing.
  destruct (method_kw_excludes_parameters _ _ _ Hkw) as (H1 & H2 & H3).
  rewrite !make_routing_lookup, H1, H2, H3. repeat split.
  intros k Hk. rewrite make_routing_lookup, (method_kw_other _ _ _ _ Hkw Hk).
  destruct (keywords !! k); [done|].
  destruct (String.eqb k "routes") eqn:E1.
  { apply String.eqb_eq in E1 as ->. destruct Hk. repeat constructor. }
  destruct (String.eqb k "input_param") eqn:E2.
  { apply String.eqb_eq in E2 as ->. destruct Hk. repeat constructor. }
  destruct (String.eqb k "output_param") eqn:E3; [|done].
  apply String.eqb_eq in E3 as ->. destruct Hk. repeat constructor.
Qed.
End method_extras.

Section method_extra_runs.
Import RestApi Samples.

Lemma decorating_again_changes_nothing_witness :
  let h : gmap nat (list string) := {[0 := ["/a"; "/b"]; 1 := ["GET"; "POST"]]} in
  let routes := [(ListRef 0, ListRef 1); (Str "/c", ListRef 1)] in
  let kw : gmap string pyval := {["cors" := PStr "*"]} in
  let first := method routes PNone PNone kw no_handler h in
  let second := method routes PNone PNone kw no_handler first.2 in
  first.2 !!! 1 = ["GET"; "POST"; "OPTIONS"] ∧
  second.2 = first.2 ∧ routing second.1 = routing first.1.
Proof.
  intros h routes kw first second.
  destruct (decorating_again_changes_nothing routes PNone PNone kw
              no_handler no_handler h) as [Hstore Hrouting].
  split; [reflexivity|]. split; [exact Hstore|]. apply Hrouting.
  intros _ l Hp Hv. vm_compute in Hp, Hv.
  apply list_elem_of_In in Hp, Hv. simpl in Hp, Hv.
  destruct Hp as [Hp|[Hp|[]]]; [|discriminate Hp].
  destruct Hv as [Hv|[Hv|[]]]; congruence.
Defined.

Lemma signature_keeps_computed_entries_witness :
  let keywords : gmap string pyval :=
    {["auth" := PStr "api_key"; "output_param" := PObj 7]} in
  let kw : gmap string pyval := {["auth" := PStr "api_key"]} in
  let r := routing (method [(Str "/a", Str "GET")] PNone (PObj 7) kw no_handler ∅).1 in
  method_kw 1 keywords = Ok kw ∧
  r !! "routes" = Some (routes_val [(["/a"], "GET")]) ∧
  r !! "output_param" = Some (PObj 7) ∧
  r !! "auth" = Some (PStr "api_key").
Proof.
  intros keywords kw r.
  assert (Hkw : method_kw 1 keywords = Ok kw) by (by vm_compute).
  destruct (signature_keeps_computed_entries 1 keywords kw
              [(Str "/a", Str "GET")] PNone (PObj 7) no_handler ∅ Hkw)
    as (Hr & _ & Ho & Hother).
  split; [exact Hkw|]. split; [exact Hr|]. split; [exact Ho|].
  subst r. rewrite (Hother "auth"); [reflexivity|].
  intros Hin. apply list_elem_of_In in Hin. simpl in Hin.
  destruct Hin as [Hin|[Hin|[Hin|[]]]]; discriminate Hin.
Defined.
End method_extra_runs.

(** ** The plugin and the decorator together *)

(** A dictionary without repeated keys is read as its list of entries. *)
Lemma dict_get_elem_of {V} k (v : V) (d : list (string * V)) :
  NoDup d.*1 → (dict_get k d = Some v ↔ (k, v) ∈ d).
Proof.
  induction d as [|[k0 v0] d IH]; intros Hdup.
  - cbn. split; [done | by intros ?%elem_of_nil].
  - csimpl in Hdup. apply NoDup_cons in Hdup as [Hk0 Hdup]. cbn [dict_get].
    rewrite elem_of_cons. destruct (String.eqb k0 k) eqn:E.
    + apply String.eqb_eq in E as ->. split.
      * intros [= ->]. by left.
      * intros [[= ->]|Hin]; [done|]. exfalso. apply Hk0.
        apply list_elem_of_fmap. by exists (k, v).
    + apply String.eqb_neq in E. rewrite (IH Hdup). split; [by right|].
      intros [[= -> ->]|?]; done.
Qed.

Lemma dict_get_map_to_list {V} k (m : gmap string V) :
  dict_get k (map_to_list m) = m !! k.
Proof.
  destruct (m !! k) as [v|] eqn:Hk.
  - apply dict_get_elem_of; [apply NoDup_fst_map_to_list|].
    by apply elem_of_map_to_list.
  - destruct (dict_get k (map_to_list m)) as [v|] eqn:Hd; [|done].
    apply dict_get_elem_of in Hd; [|apply NoDup_fst_map_to_list].
    apply elem_of_map_to_list in Hd. congruence.
Qed.

Section plugin_extras.
Import RestApi RestMethodSecurityPlugin.
Context {Args World Ret : Type}.
Variable base_operation_helper :
  pyval → option (list (string * nat)) → gmap string pyval → gmap nat obj
  → result (gmap nat obj).

(** Property X6. For a method decorated by [method], the plugin never
    turns to the base helper, since the routing metadata always has
    entries, and what it does depends on the decorator's [auth] option
    alone, or on the default of the specification when that option was
    not given: it runs its loop over the operations when that value is
    ["api_key"], and leaves everything as it is otherwise. *)
Theorem plugin_reads_the_decorators_auth (self : RestMethodSecurityPlugin.t)
    path operations kwargs hs routes ip op kw
    (f : @callable Args World Ret) h :
  let w := (method routes ip op kw f h).1 in
  let default_auth := dict_get_default "default_auth" PNone (spec_params self) in
  operation_helper base_operation_helper self path operations
    (<["routing" := routing_value (routing w)]> kwargs) hs
  = match operations with
    | None | Some [] => Ok hs
    | Some ops =>
        if is_str "api_key" (default default_auth (kw !! "auth"))
        then foldlM add_security hs ops else Ok hs
    end.
Proof.
  intros w default_auth. unfold operation_helper.
  rewrite lookup_insert_eq. cbn [from_option id].
  assert (Hw : routing w
               = make_routing (build_routes (cors_set kw) routes h).2 ip op kw).
  { apply method_routing. }
  assert (Ht : truthy (routing_value (routing w)) = true).
  { unfold routing_value. cbn [truthy].
    destruct (map_to_list (routing w)) as [|kv l] eqn:E; [|done].
    apply map_to_list_empty_iff in E.
    pose proof (make_routing_lookup (build_routes (cors_set kw) routes h).2
                  ip op kw "routes") as Hr.
    rewrite <-Hw, E, lookup_empty in Hr. by destruct (kw !! "routes"). }
  rewrite Ht. cbn [negb mbind result_bind].
  assert (Hauth : py_get "auth" default_auth (routing_value (routing w))
                  = Ok (default default_auth (kw !! "auth"))).
  { unfold routing_value, py_get, dict_get_default.
    rewrite dict_get_map_to_list, Hw, make_routing_lookup.
    by destruct (kw !! "auth"). }
  fold default_auth. rewrite Hauth. by destruct operations as [[|o ops]|].
Qed.

Lemma operation_helper_with_routing (self : RestMethodSecurityPlugin.t)
    path operations (kwargs : gmap string pyval) r hs :
  kwargs !! "routing" = Some (PDict r) → r ≠ [] →
  operation_helper base_operation_helper self path operations kwargs hs
  = match operations with
    | None | Some [] => Ok hs
    | Some ops =>
        if is_str "api_key"
             (dict_get_default "auth"
                (dict_get_default "default_auth" PNone (spec_params self)) r)
        then foldlM add_security hs ops else Ok hs
    end.
Proof.
  intros Hkw Hr. unfold operation_helper. rewrite Hkw. cbn [from_option id].
  assert (Ht : truthy (PDict r) = true) by (by destruct r).
  rewrite Ht. cbn [negb mbind result_bind py_get].
  by destruct operations as [[|o ops]|].
Qed.

(** Property X7. The helper touches only the operations it is given: an
    operation dictionary that is not in the mapping, and whose security
    list is not shared with one that is, has the same security list and
    the same entries afterwards, whatever [auth] says. *)
Theorem operations_outside_the_mapping_untouched
    (self : RestMethodSecurityPlugin.t) path kwargs r hs ops q :
  kwargs !! "routing" = Some (PDict r) → r ≠ [] →
  NoDup ops.*2 →
  Forall (λ p, is_Some (security_of hs p)) ops.*2 →
  NoDup (omap (security_ref hs) ops.*2) →
  q ∉ ops.*2 → is_Some (security_of hs q) →
  (∀ s, security_ref hs q = Some s → s ∉ omap (security_ref hs) ops.*2) →
  ∃ hs', operation_helper base_operation_helper self path (Some ops) kwargs hs
         = Ok hs' ∧
         same_operation hs hs' q.
Proof.
  intros Hkw Hr Hdup Hsec Href Hq Hsq Hqs.
  rewrite (operation_helper_with_routing self path (Some ops) kwargs r hs Hkw Hr).
  destruct (add_security_all ops hs Hdup Hsec Href) as (hs' & Hfold & _ & Hframe).
  destruct (is_str "api_key" _).
  - exists hs'. split; [|by apply Hframe].
    destruct ops; [by injection Hfold as ->|done].
  - exists hs. split; [by destruct ops|]. done.
Qed.

(** Property X8. The helper is not idempotent: run twice over the same
    operations with [auth] equal to ["api_key"], it leaves two
    requirements at the end of each security list. *)
Theorem helper_called_twice_appends_twice
    (self : RestMethodSecurityPlugin.t) path kwargs r hs ops :
  kwargs !! "routing" = Some (PDict r) → r ≠ [] →
  is_str "api_key"
    (dict_get_default "auth"
       (dict_get_default "default_auth" PNone (spec_params self)) r) = true →
  NoDup ops.*2 →
  Forall (λ p, is_Some (security_of hs p)) ops.*2 →
  NoDup (omap (security_ref hs) ops.*2) →
  ∃ hs1 hs2,
    operation_helper base_operation_helper self path (Some ops) kwargs hs = Ok hs1 ∧
    operation_helper base_operation_helper self path (Some ops) kwargs hs1 = Ok hs2 ∧
    ∀ p, p ∈ ops.*2 →
      security_of hs2 p
      = (.++ [Val api_key_requirement; Val api_key_requirement]) <$> security_of hs p.
Proof.
  intros Hkw Hr Hauth Hdup Hsec Href.
  destruct (add_security_all ops hs Hdup Hsec Href) as (hs1 & Hfold1 & Hadd1 & _).
  pose proof (proj1 (Forall_forall _ _) Hsec) as Hsec'. cbn beta in Hsec'.
  assert (Hsec1 : Forall (λ p, is_Some (security_of hs1 p)) ops.*2).
  { apply Forall_forall. intros p Hp. destruct (Hadd1 p Hp) as (-> & _).
    destruct (Hsec' p Hp) as [xs ->]. by eexists. }
  assert (Href1 : NoDup (omap (security_ref hs1) ops.*2)).
  { rewrite (omap_agree (security_ref hs1) (security_ref hs)); [done|].
    intros p Hp. apply (Hadd1 p Hp). }
  destruct (add_security_all ops hs1 Hdup Hsec1 Href1) as (hs2 & Hfold2 & Hadd2 & _).
  exists hs1, hs2.
  rewrite (operation_helper_with_routing self path (Some ops) kwargs r hs Hkw Hr).
  rewrite (operation_helper_with_routing self path (Some ops) kwargs r hs1 Hkw Hr).
  rewrite Hauth.
  split; [destruct ops; [by injection Hfold1 as ->|done]|].
  split; [destruct ops; [by injection Hfold2 as ->|done]|].
  intros p Hp. destruct (Hadd2 p Hp) as (-> & _). destruct (Hadd1 p Hp) as (-> & _).
  destruct (security_of hs p) as [xs|]; [|done]. cbn. by rewrite <-app_assoc.
Qed.
End plugin_extras.

Section plugin_extra_runs.
Import RestMethodSecurityPlugin Samples.

Lemma operations_outside_the_mapping_untouched_witness :
  let kwargs : gmap string pyval :=
    {["routing" := PDict [("auth", PStr "api_key")]]} in
  ∃ hs', operation_helper not_implemented {| spec_params := [] |} PNone
           (Some [("get", 0)]) kwargs sample_store = Ok hs' ∧
         same_operation sample_store hs' 1.
Proof.
  intros kwargs.
  apply (operations_outside_the_mapping_untouched not_implemented
           {| spec_params := [] |} PNone kwargs [("auth", PStr "api_key")]
           sample_store [("get", 0)] 1).
  - reflexivity.
  - discriminate.
  - apply (bool_decide_unpack _). by vm_compute.
  - repeat constructor; by eexists.
  - apply (bool_decide_unpack _). by vm_compute.
  - apply (bool_decide_unpack _). by vm_compute.
  - by eexists.
  - intros s _ Hin. vm_compute in Hin. by apply elem_of_nil in Hin.
Defined.

Lemma helper_called_twice_appends_twice_witness :
  let kwargs : gmap string pyval :=
    {["routing" := PDict [("auth", PStr "api_key")]]} in
  let ops := [("get", 0); ("post", 1)] in
  ∃ hs1 hs2,
    operation_helper not_implemented {| spec_params := [] |} PNone
      (Some ops) kwargs sample_store = Ok hs1 ∧
    operation_helper not_implemented {| spec_params := [] |} PNone
      (Some ops) kwargs hs1 = Ok hs2 ∧
    ∀ p, p ∈ ops.*2 →
      security_of hs2 p
      = (.++ [Val api_key_requirement; Val api_key_requirement])
          <$> security_of sample_store p.
Proof.
  intros kwargs ops.
  apply (helper_called_twice_appends_twice not_implemented
           {| spec_params := [] |} PNone kwargs [("auth", PStr "api_key")]
           sample_store ops).
  - reflexivity.
  - discriminate.
  - reflexivity.
  - apply (bool_decide_unpack _). by vm_compute.
  - repeat constructor; by eexists.
  - apply (bool_decide_unpack _). by vm_compute.
Defined.
End plugin_extra_runs.

(** ** The query parameters, field by field *)

Lemma foldlM_app {S A} (body : S → A → result S) xs ys st :
  foldlM body st (xs ++ ys) = (st' ← foldlM body st xs; foldlM body st' ys).
Proof.
  revert st. induction xs as [|x xs IH]; intros st; [done|].
  cbn [app foldlM]. destruct (body st x) as [st'|e]; [|done]. cbn. apply IH.
Qed.

Section cerberus_extras.
Import CerberusValidator.
Context `{Host}.

(** One turn of the loop, with all that the dictionary made says. *)
Lemma query_parameter_fields js required heap parameters item :
  py_getitem "required" js = Ok (PList required) →
  typed_property item = true →
  ∃ d, query_parameter js (heap, parameters) item
       = Ok (heap ++ [d], parameters ++ [length heap]) ∧
       parameter_fields required item d ∧ parameter_schema item d.
Proof.
  intros Hreq Hty. destruct item as [prop spec].
  unfold typed_property in Hty. cbn [snd] in Hty.
  destruct spec as [| | | | | |sp|]; try done.
  apply andb_true_iff in Hty as [Hmem Hsch].
  unfold dict_mem in Hmem. destruct (dict_get "type" sp) as [ty|] eqn:Ety; [|done].
  unfold parameter_fields, parameter_schema, query_parameter.
  rewrite Hreq. cbn [mbind result_bind py_contains py_get py_getitem fst snd].
  unfold dict_getitem. rewrite Ety.
  assert (Hcase : (∃ s, dict_get_default "schema" PNone sp = PDict s) ∨
                  truthy (dict_get_default "schema" PNone sp) = false).
  { unfold dict_get_default. destruct (dict_get "schema" sp) as [v|]; [|by right].
    destruct v; cbn [default]; eauto; right; by apply negb_true_iff. }
  assert (Hitems : truthy (dict_get_default "items" PNone sp) = true →
                   dict_get "items" sp = Some (dict_get_default "items" PNone sp)).
  { unfold dict_get_default. by destruct (dict_get "items" sp). }
  destruct (is_str "array" ty) eqn:Earr;
  destruct (dict_mem "enum" sp) eqn:Eenum;
  [ unfold dict_mem in Eenum;
    destruct (dict_get "enum" sp) as [enum|] eqn:Een; [|done]
  | | unfold dict_mem in Eenum;
    destruct (dict_get "enum" sp) as [enum|] eqn:Een; [|done] | ];
  destruct (truthy (dict_get_default "items" PNone sp)) eqn:Eit;
  (destruct Hcase as [[s Hs] | Hs]; rewrite Hs;
   [destruct (truthy (PDict s)) eqn:Es|]);
  cbn; rewrite ?Earr; cbn; rewrite ?store_get_last; cbn;
  rewrite ?store_set_last; eexists; (split; [reflexivity|]);
  (split; [eexists; repeat split; reflexivity|]);
  do 2 eexists; (split; [reflexivity|]); (split; [reflexivity|]);
  rewrite ?Hitems by done;
  repeat split; intros;
  rewrite ?dict_get_set_eq; rewrite ?dict_get_set_ne by done;
  rewrite ?dict_get_set_eq; rewrite ?Een; try done; try congruence.
Qed.

Lemma query_parameters_fold_fields js required items : ∀ heap parameters,
  py_getitem "required" js = Ok (PList required) →
  forallb typed_property items = true →
  ∃ ds, foldlM (query_parameter js) (heap, parameters) items
        = Ok (heap ++ ds, parameters ++ seq (length heap) (length ds)) ∧
        Forall2 (λ item d, parameter_fields required item d ∧ parameter_schema item d)
                items ds.
Proof.
  induction items as [|item items IH]; intros heap parameters Hreq Hty.
  - exists []. rewrite !app_nil_r. by split.
  - cbn [forallb] in Hty. apply andb_true_iff in Hty as [Hitem Hitems].
    destruct (query_parameter_fields js required heap parameters item Hreq Hitem)
      as (d & Hstep & Hd).
    destruct (IH (heap ++ [d]) (parameters ++ [length heap]) Hreq Hitems)
      as (ds & Hfold & Hds).
    exists (d :: ds). split; [|by constructor].
    rewrite foldlM_cons, Hstep. cbn [mbind result_bind]. rewrite Hfold.
    rewrite <-!app_assoc, length_app. cbn [length seq app].
    by rewrite Nat.add_1_r.
Qed.

Lemma query_parameters_of_fields js properties required :
  py_getitem "properties" js = Ok (PDict properties) →
  py_getitem "required" js = Ok (PList required) →
  forallb typed_property properties = true →
  ∃ ps, query_parameters_of js = Ok ps ∧
        Forall2 (λ item d, parameter_fields required item d ∧ parameter_schema item d)
                properties ps.
Proof.
  intros Hprops Hreq Hty. unfold query_parameters_of.
  rewrite Hprops. cbn [mbind result_bind py_items].
  destruct (query_parameters_fold_fields js required properties [] [] Hreq Hty)
    as (ds & -> & Hds).
  exists ds. cbn [mbind result_bind]. split; [|done].
  f_equal. apply (deref_all [] ds).
Qed.

(** Property X9. When the converted input schema has typed properties,
    [to_openapi_query_parameters] returns one parameter per property, in
    the order of the properties, and each parameter is a query parameter
    that is required exactly when its property is in the schema's
    ["required"] list, that allows an empty value as the property's
    ["nullable"] says ([False] if absent), and whose default is the
    property's ["default"] ([None] if absent). *)
Theorem query_parameters_mirror_the_schema (self : t) (service : Service)
    js properties required :
  to_json_schema self service "input" = Ok js →
  py_getitem "properties" js = Ok (PDict properties) →
  py_getitem "required" js = Ok (PList required) →
  forallb typed_property properties = true →
  ∃ ps, to_openapi_query_parameters self service = Ok ps ∧
        Forall2 (parameter_fields required) properties ps.
Proof.
  intros Hjs Hprops Hreq Hty.
  destruct (query_parameters_of_fields js properties required Hprops Hreq Hty)
    as (ps & Hps & Hall).
  exists ps. unfold to_openapi_query_parameters. rewrite Hjs. split; [done|].
  eapply Forall2_impl; [exact Hall|]. by intros item d [? _].
Qed.


(** A property description without a type stops the turn it is met in. *)
Lemma query_parameter_untyped js required st prop sp :
  py_getitem "required" js = Ok (PList required) →
  dict_get "type" sp = None →
  match dict_get "schema" sp with
  | None | Some (PDict _) => true
  | Some v => negb (truthy v)
  end = true →
  query_parameter js st (prop, PDict sp) = Raise (KeyError "type").
Proof.
  intros Hreq Ety Hsch. destruct st as [heap parameters].
  unfold query_parameter.
  rewrite Hreq. cbn [mbind result_bind py_contains py_get py_getitem fst snd].
  unfold dict_getitem. rewrite Ety.
  assert (Hcase : (∃ s, dict_get_default "schema" PNone sp = PDict s) ∨
                  truthy (dict_get_default "schema" PNone sp) = false).
  { unfold dict_get_default. destruct (dict_get "schema" sp) as [v|]; [|by right].
    destruct v; cbn [default]; eauto; right; by apply negb_true_iff. }
  destruct (dict_mem "enum" sp) eqn:Eenum;
  [ unfold dict_mem in Eenum;
    destruct (dict_get "enum" sp) as [enum|] eqn:Een; [|done] | ];
  destruct (truthy (dict_get_default "items" PNone sp)) eqn:Eit;
  (destruct Hcase as [[s Hs] | Hs]; rewrite Hs;
   [destruct (truthy (PDict s)) eqn:Es|]);
  reflexivity.
Qed.

(** Property X11. One property without a ["type"] makes the whole listing
    fail: wherever it stands among typed properties, and even if it
    brings a schema of its own, [to_openapi_query_parameters] raises
    [KeyError] for ["type"], and the parameters built for the properties
    before it are lost. *)
Theorem untyped_property_stops_the_listing (self : t) (service : Service)
    js before prop sp after required :
  to_json_schema self service "input" = Ok js →
  py_getitem "properties" js = Ok (PDict (before ++ (prop, PDict sp) :: after)) →
  py_getitem "required" js = Ok (PList required) →
  forallb typed_property before = true →
  dict_get "type" sp = None →
  match dict_get "schema" sp with
  | None | Some (PDict _) => true
  | Some v => negb (truthy v)
  end = true →
  to_openapi_query_parameters self service = Raise (KeyError "type").
Proof.
  intros Hjs Hprops Hreq Hty Ety Hsch.
  unfold to_openapi_query_parameters. rewrite Hjs. cbn [mbind result_bind].
  unfold query_parameters_of. rewrite Hprops. cbn [mbind result_bind py_items].
  rewrite foldlM_app.
  destruct (query_parameters_fold_fields js required before [] [] Hreq Hty)
    as (ds & -> & _).
  cbn [mbind result_bind]. rewrite foldlM_cons.
  by rewrite (query_parameter_untyped js required _ prop sp Hreq Ety Hsch).
Qed.

(** ** Where the validator comes from *)

(** Property X12. A schema source that is neither a name, a validator nor
    a dictionary (the default [None], for one) makes every method of the
    transformer fail in one and the same way, before anything else is
    done: the two validations, the query parameters, the request body
    and the responses. The exception is the one that shows the source,
    except when the source is a tuple, which the formatting of the
    message unpacks: a tuple of one element is shown as that element,
    and any other tuple makes the formatting itself raise [TypeError]. *)
Theorem unusable_schema_source_fails_everywhere (self : t) (service : Service) x :
  _schema self = SOther x →
  let e := match x with
           | PTuple [y] => unable y
           | PTuple _ => TypeError
           | _ => unable x
           end in
  (∀ params, from_params self service params = Raise e) ∧
  (∀ res, to_response self service res = Raise e) ∧
  to_openapi_query_parameters self service = Raise e ∧
  to_openapi_requestbody self service = Raise e ∧
  to_openapi_responses self service = Raise e.
Proof.
  intros Hs e.
  assert (Hget : ∀ d, d ∈ ["input"; "output"] →
                      get_cerberus_validator self service d = Raise e).
  { intros d Hd. unfold get_cerberus_validator.
    rewrite bool_decide_eq_true_2 by done. rewrite Hs.
    cbn [negb mbind result_bind schema_repr]. subst e. unfold percent.
    destruct x as [| | | | |xs| |]; try done.
    by destruct xs as [|y [|z zs]]. }
  unfold from_params, to_response, to_openapi_query_parameters,
    to_openapi_requestbody, to_openapi_responses, to_json_schema.
  rewrite !Hget by (by left || by (right; left)). done.
Qed.

(** Property X14. Unless the schema is given by name, the direction
    plays no part in a successful validation: [from_params] returns a
    document for a value exactly when [to_response] returns that
    document for it. *)
Theorem both_directions_validate_alike (self : t) (service : Service) x d :
  (∀ name, _schema self ≠ SStr name) →
  from_params self service x = Ok d ↔ to_response self service x = Ok d.
Proof.
  intros Hs. unfold from_params, to_response, get_cerberus_validator.
  rewrite !bool_decide_eq_true_2 by (by left || by (right; left)). cbn [negb].
  destruct (_schema self) as [name| v | rules | y]; [by destruct (Hs name)| | |];
    cbn [mbind result_bind]; try done.
  - destruct (validate v x) as [[[] v']|]; cbn; done.
  - destruct (validate _ x) as [[[] v']|]; cbn; done.
  - by destruct (percent _ _).
Qed.
End cerberus_extras.

Section cerberus_extra_runs.
Import CerberusValidator ReferenceValidator Samples.

Lemma query_parameters_mirror_the_schema_witness :
  let properties :=
    [ ("tags", PDict [("type", PStr "array"); ("required", PBool true)]);
      ("name", PDict [("type", PStr "string"); ("default", PStr "x")]) ] in
  ∃ ps, to_openapi_query_parameters sample_validator () = Ok ps ∧
        Forall2 (parameter_fields [PStr "tags"]) properties ps.
Proof.
  intros properties.
  eapply (query_parameters_mirror_the_schema (H0 := host) sample_validator ()
            _ properties [PStr "tags"]); reflexivity.
Defined.


Lemma untyped_property_stops_the_listing_witness :
  to_openapi_query_parameters untyped_validator () = Raise (KeyError "type").
Proof.
  eapply (untyped_property_stops_the_listing (H0 := host) untyped_validator ()
            _ [("tags", PDict [("type", PStr "array")])]
            "note" [("required", PBool true)]
            [("name", PDict [("type", PStr "string")])] [PStr "note"]);
    reflexivity.
Defined.

Lemma unusable_schema_source_fails_everywhere_witness :
  let nothing := init (SOther PNone) false in
  let pair := init (SOther (PTuple [PInt 1; PInt 2])) false in
  let single := init (SOther (PTuple [PStr "a"])) false in
  (∀ params, from_params nothing () params = Raise (unable PNone)) ∧
  to_openapi_responses nothing () = Raise (unable PNone) ∧
  (∀ params, from_params pair () params = Raise TypeError) ∧
  to_openapi_query_parameters single () = Raise (unable (PStr "a")).
Proof.
  intros nothing pair single.
  destruct (unusable_schema_source_fails_everywhere (H0 := host) nothing ()
              PNone eq_refl) as (Hfrom & _ & _ & _ & Hresp).
  destruct (unusable_schema_source_fails_everywhere (H0 := host) pair ()
              (PTuple [PInt 1; PInt 2]) eq_refl) as (Hpair & _).
  destruct (unusable_schema_source_fails_everywhere (H0 := host) single ()
              (PTuple [PStr "a"]) eq_refl) as (_ & _ & Hsingle & _).
  split; [exact Hfrom|]. split; [exact Hresp|]. split; [exact Hpair|].
  exact Hsingle.
Defined.

Lemma both_directions_validate_alike_witness :
  let x := PDict [("tags", PList [PStr "a"]); ("extra", PInt 1)] in
  let d := PDict [("tags", PList [PStr "a"]); ("name", PStr "x")] in
  from_params sample_validator () x = Ok d ↔ to_response sample_validator () x = Ok d.
Proof.
  intros x d.
  apply (both_directions_validate_alike (H0 := host) sample_validator () x d).
  intros name Hname. discriminate Hname.
Defined.
End cerberus_extra_runs.

(** ** The documentation of binary payloads *)

Section binary_data_extras.
Import BinaryData.

Lemma content_schema_fold required (ms : list string) : ∀ d m,
  dict_get m (foldl (λ d mediatype, dict_set mediatype (binary_schema required) d) d ms)
  = if bool_decide (m ∈ ms) then Some (binary_schema required) else dict_get m d.
Proof.
  induction ms as [|m0 ms IH]; intros d m; cbn [foldl].
  - done.
  - rewrite IH. case_bool_decide as Hin.
    + rewrite bool_decide_eq_true_2; [done | by right].
    + destruct (decide (m = m0)) as [->|Hne].
      * rewrite bool_decide_eq_true_2 by (by left). apply dict_get_set_eq.
      * rewrite bool_decide_eq_false_2.
        2:{ rewrite elem_of_cons. tauto. }
        by apply dict_get_set_ne.
Qed.

Lemma dict_set_keys {V} k (v : V) (d : list (string * V)) :
  NoDup d.*1 → NoDup (dict_set k v d).*1 ∧
  ∀ k', k' ∈ (dict_set k v d).*1 ↔ k' = k ∨ k' ∈ d.*1.
Proof.
  induction d as [|[k0 v0] d IH]; intros Hdup.
  - cbn. split; [apply NoDup_singleton|]. intros k'.
    rewrite list_elem_of_singleton, elem_of_nil. tauto.
  - csimpl in Hdup. apply NoDup_cons in Hdup as [Hk0 Hdup].
    destruct (IH Hdup) as [IH1 IH2]. cbn [dict_set].
    destruct (String.eqb k0 k) eqn:E.
    + apply String.eqb_eq in E as ->. csimpl. split; [by apply NoDup_cons|].
      intros k'. rewrite elem_of_cons. tauto.
    + apply String.eqb_neq in E. csimpl. split.
      * apply NoDup_cons. split; [|done]. rewrite IH2. intros [?|?]; congruence.
      * intros k'. rewrite !elem_of_cons, IH2. tauto.
Qed.

Lemma content_schema_keys required (ms : list string) : ∀ d,
  NoDup d.*1 →
  NoDup (foldl (λ d mediatype, dict_set mediatype (binary_schema required) d) d ms).*1.
Proof.
  induction ms as [|m0 ms IH]; intros d Hdup; cbn [foldl]; [done|].
  apply IH. by apply dict_set_keys.
Qed.

(** Property X15. The request body and the responses of a binary
    payload document the same content: a dictionary with exactly one
    entry per media type of the transformer, also when a media type was
    listed more than once, each entry being the binary string schema
    that carries the transformer's [required] flag; the responses put it
    under the status ["200"]. *)
Theorem one_content_entry_per_media_type {Service : Type}
    (self : BinaryData.t) (service : Service) :
  ∃ content,
    to_openapi_requestbody self service = PDict [("content", PDict content)] ∧
    to_openapi_responses self service
    = PDict [("200", PDict [("content", PDict content)])] ∧
    NoDup content.*1 ∧
    ∀ m, dict_get m content
         = if bool_decide (m ∈ _mediatypes self)
           then Some (binary_schema (_required self)) else None.
Proof.
  exists (_binary_content_schema self). do 2 (split; [done|]).
  unfold _binary_content_schema. split.
  - apply content_schema_keys. constructor.
  - intros m. by rewrite content_schema_fold.
Qed.
End binary_data_extras.
